(** * LTI 1.3 registration overlay state

    A shallow embedding of
    [ui/features/lti_registrations/manage/lti_1p3_registration_form/Lti1p3RegistrationOverlayState.ts]:
    the overlay snapshot, the twelve store actions and the function
    [initialOverlayStateFromInternalConfig] that derives the first snapshot
    from an internal LTI configuration.

    Conventions of the embedding:
    - an optional property ([x?: T], or a value that may be [undefined] or
      [null]) is an [option];
    - the string-literal union types [LtiScope], [LtiPlacement],
      [LtiMessageType] and [LtiPrivacyLevel] are strings, as they are at run
      time;
    - an object used as a dictionary ([Record<LtiPlacement, ...>]) is a
      [gmap string _];
    - the input mapping [custom_fields] is the list of its entries in the
      order [Object.entries] enumerates them. *)

From stdpp Require Import base option list strings gmap fin_maps.

Open Scope string_scope.
Open Scope list_scope.

(** ** Strings and arrays of the host language *)

(** The line feed written ['\n'] in the source. *)
Definition LF : string := String (Ascii.ascii_of_nat 10) EmptyString.

(** [Array.prototype.join]: the elements separated by [sep]; the empty array
    gives the empty string. *)
Fixpoint join (sep : string) (xs : list string) : string :=
  match xs with
  | [] => ""
  | [x] => x
  | x :: rest => x +:+ sep +:+ join sep rest
  end.

(** [Array.prototype.includes] on an array of strings. *)
Definition includes (x : string) (xs : list string) : bool :=
  bool_decide (x ∈ xs).

(** [xs.filter(s => s !== x)]. *)
Definition filter_ne (x : string) (xs : list string) : list string :=
  filter (λ s, s ≠ x) xs.

(** Truthiness of an optional string: [undefined], [null] and [''] are
    falsy. *)
Definition truthy_string (o : option string) : bool :=
  match o with
  | Some s => negb (bool_decide (s = ""))
  | None => false
  end.

(** Truthiness of an optional boolean, as seen by [!]. *)
Definition truthy_bool (o : option bool) : bool :=
  match o with
  | Some b => b
  | None => false
  end.

(** ** Data model *)

(** Modelled from the spec: the declarations of [LtiScope], [LtiPlacement],
    [LtiMessageType] and [LtiPrivacyLevel] are imported from modules that are
    not part of the sources.  The spec calls them identifiers and enumerated
    values (the code writes them as string literals, ['course_navigation'],
    ['LtiResourceLinkRequest']); they are strings here, so that no value
    the program can be handed is excluded. *)
Definition LtiScope := string.
Definition LtiPlacement := string.
Definition LtiMessageType := string.
Definition LtiPrivacyLevel := string.

Inductive JwkMethodKind := public_jwk_url | public_jwk.

Module LaunchSettings.
Record t := mk {
  redirectURIs : option string;
  targetLinkURI : option string;
  openIDConnectInitiationURL : option string;
  JwkMethod : option JwkMethodKind;
  JwkURL : option string;
  Jwk : option string;
  domain : option string;
  customFields : option string
}.
End LaunchSettings.

Module Permissions.
Record t := mk { scopes : option (list LtiScope) }.
End Permissions.

Module DataSharing.
Record t := mk { privacy_level : option LtiPrivacyLevel }.
End DataSharing.

Module Placements.
Record t := mk {
  placements : option (list LtiPlacement);
  courseNavigationDefaultDisabled : option bool
}.
End Placements.

Module OverrideUri.
Record t := mk {
  message_type : option LtiMessageType;
  uri : option string
}.
End OverrideUri.

Module OverrideUris.
Record t := mk { placements : gmap string OverrideUri.t }.
End OverrideUris.

Module PlacementName.
Record t := mk { name : option string }.
End PlacementName.

Module Naming.
Record t := mk {
  nickname : option string;
  description : option string;
  notes : option string;
  placements : gmap string PlacementName.t
}.
End Naming.

Module PlacementIcon.
Record t := mk { icon_url : option string }.
End PlacementIcon.

Module Icons.
Record t := mk { placements : gmap string PlacementIcon.t }.
End Icons.

(** [Lti1p3RegistrationOverlayState] *)
Module State.
Record t := mk {
  launchSettings : LaunchSettings.t;
  permissions : Permissions.t;
  data_sharing : DataSharing.t;
  placements : Placements.t;
  override_uris : OverrideUris.t;
  naming : Naming.t;
  icons : Icons.t
}.
End State.

(** ** The store actions, as functions on snapshots

    Every action is [set(updateState(f))]: the store replaces its snapshot
    [state] by [f state].  The functions below are those [f]. *)

(** The keys of [launchSettings]. *)
Inductive LaunchKey :=
  | K_redirectURIs | K_targetLinkURI | K_openIDConnectInitiationURL
  | K_JwkMethod | K_JwkURL | K_Jwk | K_domain | K_customFields.

(** [Lti1p3RegistrationOverlayState['launchSettings'][K]] *)
Definition LaunchValue (key : LaunchKey) : Type :=
  match key with
  | K_JwkMethod => option JwkMethodKind
  | _ => option string
  end.

(** [{...launchSettings, [key]: value}] *)
Definition launchSettings_with (key : LaunchKey)
  : LaunchValue key → LaunchSettings.t → LaunchSettings.t :=
  match key with
  | K_redirectURIs => λ v ls,
      LaunchSettings.mk v (LaunchSettings.targetLinkURI ls)
        (LaunchSettings.openIDConnectInitiationURL ls) (LaunchSettings.JwkMethod ls)
        (LaunchSettings.JwkURL ls) (LaunchSettings.Jwk ls) (LaunchSettings.domain ls)
        (LaunchSettings.customFields ls)
  | K_targetLinkURI => λ v ls,
      LaunchSettings.mk (LaunchSettings.redirectURIs ls) v
        (LaunchSettings.openIDConnectInitiationURL ls) (LaunchSettings.JwkMethod ls)
        (LaunchSettings.JwkURL ls) (LaunchSettings.Jwk ls) (LaunchSettings.domain ls)
        (LaunchSettings.customFields ls)
  | K_openIDConnectInitiationURL => λ v ls,
      LaunchSettings.mk (LaunchSettings.redirectURIs ls) (LaunchSettings.targetLinkURI ls)
        v (LaunchSettings.JwkMethod ls)
        (LaunchSettings.JwkURL ls) (LaunchSettings.Jwk ls) (LaunchSettings.domain ls)
        (LaunchSettings.customFields ls)
  | K_JwkMethod => λ v ls,
      LaunchSettings.mk (LaunchSettings.redirectURIs ls) (LaunchSettings.targetLinkURI ls)
        (LaunchSettings.openIDConnectInitiationURL ls) v
        (LaunchSettings.JwkURL ls) (LaunchSettings.Jwk ls) (LaunchSettings.domain ls)
        (LaunchSettings.customFields ls)
  | K_JwkURL => λ v ls,
      LaunchSettings.mk (LaunchSettings.redirectURIs ls) (LaunchSettings.targetLinkURI ls)
        (LaunchSettings.openIDConnectInitiationURL ls) (LaunchSettings.JwkMethod ls)
        v (LaunchSettings.Jwk ls) (LaunchSettings.domain ls)
        (LaunchSettings.customFields ls)
  | K_Jwk => λ v ls,
      LaunchSettings.mk (LaunchSettings.redirectURIs ls) (LaunchSettings.targetLinkURI ls)
        (LaunchSettings.openIDConnectInitiationURL ls) (LaunchSettings.JwkMethod ls)
        (LaunchSettings.JwkURL ls) v (LaunchSettings.domain ls)
        (LaunchSettings.customFields ls)
  | K_domain => λ v ls,
      LaunchSettings.mk (LaunchSettings.redirectURIs ls) (LaunchSettings.targetLinkURI ls)
        (LaunchSettings.openIDConnectInitiationURL ls) (LaunchSettings.JwkMethod ls)
        (LaunchSettings.JwkURL ls) (LaunchSettings.Jwk ls) v
        (LaunchSettings.customFields ls)
  | K_customFields => λ v ls,
      LaunchSettings.mk (LaunchSettings.redirectURIs ls) (LaunchSettings.targetLinkURI ls)
        (LaunchSettings.openIDConnectInitiationURL ls) (LaunchSettings.JwkMethod ls)
        (LaunchSettings.JwkURL ls) (LaunchSettings.Jwk ls) (LaunchSettings.domain ls)
        v
  end.

(** [updateLaunchSetting(key, value)]:
    [{...state, launchSettings: {...state.launchSettings, [key]: value}}] *)
Definition updateLaunchSetting (key : LaunchKey) (value : LaunchValue key)
    (state : State.t) : State.t :=
  State.mk (launchSettings_with key value (State.launchSettings state))
    (State.permissions state) (State.data_sharing state) (State.placements state)
    (State.override_uris state) (State.naming state) (State.icons state).

Definition setRedirectURIs (redirectURIs : string) :=
  updateLaunchSetting K_redirectURIs (Some redirectURIs).
Definition setDefaultTargetLinkURI (targetLinkURI : string) :=
  updateLaunchSetting K_targetLinkURI (Some targetLinkURI).
Definition setOIDCInitiationURI (oidcInitiationURI : string) :=
  updateLaunchSetting K_openIDConnectInitiationURL (Some oidcInitiationURI).
Definition setJwkURL (jwkURL : string) :=
  updateLaunchSetting K_JwkURL (Some jwkURL).
Definition setJwk (jwk : string) :=
  updateLaunchSetting K_Jwk (Some jwk).
Definition setJwkMethod (jwkMethod : option JwkMethodKind) :=
  updateLaunchSetting K_JwkMethod jwkMethod.
Definition setDomain (domain : string) :=
  updateLaunchSetting K_domain (Some domain).
Definition setCustomFields (customFields : string) :=
  updateLaunchSetting K_customFields (Some customFields).

(** The list computed by both toggles: with [xs] the current optional list,
    [xs?.includes(x) ? xs.filter(s => s !== x) : [...(xs ?? []), x]]. *)
Definition toggled (x : string) (xs : option (list string)) : list string :=
  match xs with
  | Some l => if includes x l then filter_ne x l else l ++ [x]
  | None => [] ++ [x]
  end.

(** [{...permissions, scopes: updatedScopes}] *)
Definition permissions_toggleScope (scope : LtiScope) (p : Permissions.t) : Permissions.t :=
  Permissions.mk (Some (toggled scope (Permissions.scopes p))).

Definition toggleScope (scope : LtiScope) (state : State.t) : State.t :=
  State.mk (State.launchSettings state)
    (permissions_toggleScope scope (State.permissions state))
    (State.data_sharing state) (State.placements state)
    (State.override_uris state) (State.naming state) (State.icons state).

(** [{...data_sharing, privacy_level: privacyLevel}] *)
Definition data_sharing_setPrivacyLevel (privacyLevel : LtiPrivacyLevel)
    (d : DataSharing.t) : DataSharing.t :=
  DataSharing.mk (Some privacyLevel).

Definition setPrivacyLevel (privacyLevel : LtiPrivacyLevel) (state : State.t) : State.t :=
  State.mk (State.launchSettings state) (State.permissions state)
    (data_sharing_setPrivacyLevel privacyLevel (State.data_sharing state))
    (State.placements state)
    (State.override_uris state) (State.naming state) (State.icons state).

(** [{...placements, courseNavigationDefaultDisabled:
      !placements.courseNavigationDefaultDisabled}] *)
Definition placements_toggleCourseNavigationDefaultDisabled (p : Placements.t)
    : Placements.t :=
  Placements.mk (Placements.placements p)
    (Some (negb (truthy_bool (Placements.courseNavigationDefaultDisabled p)))).

Definition toggleCourseNavigationDefaultDisabled (state : State.t) : State.t :=
  State.mk (State.launchSettings state) (State.permissions state)
    (State.data_sharing state)
    (placements_toggleCourseNavigationDefaultDisabled (State.placements state))
    (State.override_uris state) (State.naming state) (State.icons state).

(** [{...placements, placements: updatedPlacements}] *)
Definition placements_togglePlacement (placement : LtiPlacement) (p : Placements.t)
    : Placements.t :=
  Placements.mk (Some (toggled placement (Placements.placements p)))
    (Placements.courseNavigationDefaultDisabled p).

Definition togglePlacement (placement : LtiPlacement) (state : State.t) : State.t :=
  State.mk (State.launchSettings state) (State.permissions state)
    (State.data_sharing state)
    (placements_togglePlacement placement (State.placements state))
    (State.override_uris state) (State.naming state) (State.icons state).

(** The twelve actions of [Lti1p3RegistrationOverlayActions], with their
    arguments. *)
Inductive Action :=
  | SetRedirectURIs (redirectURIs : string)
  | SetDefaultTargetLinkURI (targetLinkURI : string)
  | SetOIDCInitiationURI (oidcInitiationURI : string)
  | SetJwkMethod (jwkMethod : option JwkMethodKind)
  | SetJwkURL (jwkURL : string)
  | SetJwk (jwk : string)
  | SetDomain (domain : string)
  | SetCustomFields (customFields : string)
  | ToggleScope (scope : LtiScope)
  | SetPrivacyLevel (privacyLevel : LtiPrivacyLevel)
  | TogglePlacement (placement : LtiPlacement)
  | ToggleCourseNavigationDefaultDisabled.

(** The snapshot the store holds after an action. *)
Definition dispatch (a : Action) : State.t → State.t :=
  match a with
  | SetRedirectURIs v => setRedirectURIs v
  | SetDefaultTargetLinkURI v => setDefaultTargetLinkURI v
  | SetOIDCInitiationURI v => setOIDCInitiationURI v
  | SetJwkMethod v => setJwkMethod v
  | SetJwkURL v => setJwkURL v
  | SetJwk v => setJwk v
  | SetDomain v => setDomain v
  | SetCustomFields v => setCustomFields v
  | ToggleScope s => toggleScope s
  | SetPrivacyLevel v => setPrivacyLevel v
  | TogglePlacement p => togglePlacement p
  | ToggleCourseNavigationDefaultDisabled => toggleCourseNavigationDefaultDisabled
  end.

(** ** The initializer *)

Module InternalPlacement.
(** Modelled from the spec: the declaration of the placement records of
    [InternalLtiConfiguration] is not part of the sources.  The fields are
    those the initializer reads; per the spec each record has a placement
    kind and an optional message type, URL, display text, default-disabled
    flag and icon URL. *)
Record t := mk {
  placement : LtiPlacement;
  message_type : option LtiMessageType;
  url : option string;
  text : option string;
  default : option string;
  icon_url : option string
}.
End InternalPlacement.

Module InternalLtiConfiguration.
(** Modelled from the spec: the declaration of [InternalLtiConfiguration] is
    not part of the sources.  The fields are those the initializer reads,
    over the type [Json] of structured keys.  A field is optional where the
    spec says so or where the code guards its use ([redirect_uris?.join],
    [custom_fields ? ... : undefined]); [custom_fields] is the list of the
    entries of the mapping in the order [Object.entries] enumerates them. *)
Record t {Json : Type} := mk {
  title : string;
  target_link_uri : string;
  oidc_initiation_url : string;
  redirect_uris : option (list string);
  public_jwk_url : option string;
  public_jwk : option Json;
  domain : option string;
  custom_fields : option (list (string * string));
  scopes : list LtiScope;
  privacy_level : option LtiPrivacyLevel;
  placements : list InternalPlacement.t
}.
Arguments t : clear implicits.
Arguments mk {Json}.
End InternalLtiConfiguration.

(** The template literal [`${key}=${value}\n`]. *)
Definition customFields_line (entry : string * string) : string :=
  entry.1 +:+ "=" +:+ entry.2 +:+ LF.

(** The reducer of [custom_fields]: [acc + `${key}=${value}\n`]. *)
Definition customFields_step (acc : string) (entry : string * string) : string :=
  acc +:+ customFields_line entry.

(** The three reducers over the placement records; each is
    [acc[p.placement] = {...}; return acc].  The map holds, for a key, what
    the bracket read of the object at that key returns once it has been
    assigned.  For every key but ['__proto__'] the assignment creates or
    overwrites an own property of that name; at ['__proto__'] it replaces
    the prototype of the object and adds no own property. *)
Definition override_uris_step (target_link_uri : string)
    (acc : gmap string OverrideUri.t) (p : InternalPlacement.t) : gmap string OverrideUri.t :=
  <[InternalPlacement.placement p :=
      OverrideUri.mk
        (Some (default "LtiResourceLinkRequest" (InternalPlacement.message_type p)))
        (Some (default target_link_uri (InternalPlacement.url p)))]> acc.

Definition naming_step (title : string)
    (acc : gmap string PlacementName.t) (p : InternalPlacement.t) : gmap string PlacementName.t :=
  <[InternalPlacement.placement p :=
      PlacementName.mk (Some (default title (InternalPlacement.text p)))]> acc.

Definition icons_step
    (acc : gmap string PlacementIcon.t) (p : InternalPlacement.t) : gmap string PlacementIcon.t :=
  <[InternalPlacement.placement p :=
      PlacementIcon.mk (InternalPlacement.icon_url p)]> acc.

(** [placements.find(p => p.placement === 'course_navigation')] *)
Definition find_course_navigation (ps : list InternalPlacement.t)
    : option InternalPlacement.t :=
  List.find (λ p, bool_decide (InternalPlacement.placement p = "course_navigation")) ps.

Section Initializer.
(** The structured public key and [JSON.stringify], both of the host
    language. *)
Context {Json : Type} (JSON_stringify : option Json → option string).

Definition initialOverlayStateFromInternalConfig
    (internalConfig : InternalLtiConfiguration.t Json) : State.t :=
  let target_link_uri := InternalLtiConfiguration.target_link_uri internalConfig in
  let title := InternalLtiConfiguration.title internalConfig in
  let placements := InternalLtiConfiguration.placements internalConfig in
  State.mk
    (LaunchSettings.mk
       (join LF <$> InternalLtiConfiguration.redirect_uris internalConfig)
       (Some target_link_uri)
       (Some (InternalLtiConfiguration.oidc_initiation_url internalConfig))
       (Some (if truthy_string (InternalLtiConfiguration.public_jwk_url internalConfig)
              then public_jwk_url else public_jwk))
       (InternalLtiConfiguration.public_jwk_url internalConfig)
       (JSON_stringify (InternalLtiConfiguration.public_jwk internalConfig))
       (InternalLtiConfiguration.domain internalConfig)
       (match InternalLtiConfiguration.custom_fields internalConfig with
        | Some entries => Some (fold_left customFields_step entries "")
        | None => None
        end))
    (Permissions.mk (Some (InternalLtiConfiguration.scopes internalConfig)))
    (DataSharing.mk (InternalLtiConfiguration.privacy_level internalConfig))
    (Placements.mk
       (Some (InternalPlacement.placement <$> placements))
       (Some (bool_decide
                (find_course_navigation placements ≫= InternalPlacement.default
                 = Some "disabled"))))
    (OverrideUris.mk (fold_left (override_uris_step target_link_uri) placements ∅))
    (Naming.mk (Some title) (Some "") (Some "")
       (fold_left (naming_step title) placements ∅))
    (Icons.mk (fold_left icons_step placements ∅)).
End Initializer.

(** ** The store

    [createLti1p3RegistrationOverlayStore] creates a store whose value has
    the property [state] beside the twelve actions; an action is
    [set(updateState(f))], and [set] merges the object [updateState(f)]
    returns into the store value, which replaces [state] and keeps the
    actions. *)
Module Store.
Record t := mk { state : State.t }.
End Store.

(** [stateFor(state)]: [{state}] *)
Definition stateFor (state : State.t) : Store.t := Store.mk state.

(** [updateState(f)(fullState)]: [stateFor(f(fullState.state))] *)
Definition updateState (f : State.t → State.t) (fullState : Store.t) : Store.t :=
  stateFor (f (Store.state fullState)).

(** The value of the store [createLti1p3RegistrationOverlayStore] returns. *)
Definition createLti1p3RegistrationOverlayStore {Json : Type}
    (JSON_stringify : option Json → option string)
    (internalConfig : InternalLtiConfiguration.t Json) : Store.t :=
  Store.mk (initialOverlayStateFromInternalConfig JSON_stringify internalConfig).

(** The value of the store after an action is called. *)
Definition act (a : Action) (store : Store.t) : Store.t :=
  updateState (dispatch a) store.

(** The value of the store after a sequence of calls. *)
Definition run (actions : list Action) (store : Store.t) : Store.t :=
  fold_left (λ store a, act a store) actions store.

(** The property of [launchSettings] a key names. *)
Definition launchSettings_get (key : LaunchKey) : LaunchSettings.t → LaunchValue key :=
  match key with
  | K_redirectURIs => LaunchSettings.redirectURIs
  | K_targetLinkURI => LaunchSettings.targetLinkURI
  | K_openIDConnectInitiationURL => LaunchSettings.openIDConnectInitiationURL
  | K_JwkMethod => LaunchSettings.JwkMethod
  | K_JwkURL => LaunchSettings.JwkURL
  | K_Jwk => LaunchSettings.Jwk
  | K_domain => LaunchSettings.domain
  | K_customFields => LaunchSettings.customFields
  end.

(** The actions that toggle, as opposed to those that set a value. *)
Definition is_toggle (a : Action) : bool :=
  match a with
  | ToggleScope _ | TogglePlacement _ | ToggleCourseNavigationDefaultDisabled => true
  | _ => false
  end.

(** ** Snapshots as objects in a store

    The source builds every snapshot with object spread: a new snapshot
    object and one new section object are allocated, and the other
    properties of the new snapshot hold the references of the old one.  To
    speak of reference equality the objects live in a store, and a snapshot
    is the location of its object. *)
Module Refs.

Definition loc := positive.

(** The seven top-level properties of a snapshot. *)
Inductive Section_ :=
  | S_launchSettings | S_permissions | S_data_sharing | S_placements
  | S_override_uris | S_naming | S_icons.

(** A snapshot object: each property holds a reference. *)
Record StateObj := mk {
  launchSettings : loc;
  permissions : loc;
  data_sharing : loc;
  placements : loc;
  override_uris : loc;
  naming : loc;
  icons : loc
}.

Inductive Obj :=
  | O_State (o : StateObj)
  | O_LaunchSettings (v : LaunchSettings.t)
  | O_Permissions (v : Permissions.t)
  | O_DataSharing (v : DataSharing.t)
  | O_Placements (v : Placements.t)
  | O_OverrideUris (v : OverrideUris.t)
  | O_Naming (v : Naming.t)
  | O_Icons (v : Icons.t).

Abbreviation heap := (gmap loc Obj).

(** The reference a snapshot object holds for a section. *)
Definition ref_of (sec : Section_) (o : StateObj) : loc :=
  match sec with
  | S_launchSettings => launchSettings o
  | S_permissions => permissions o
  | S_data_sharing => data_sharing o
  | S_placements => placements o
  | S_override_uris => override_uris o
  | S_naming => naming o
  | S_icons => icons o
  end.

(** Typed reads of the store. *)
Definition get_State (h : heap) (l : loc) : option StateObj :=
  match h !! l with Some (O_State o) => Some o | _ => None end.
Definition get_LaunchSettings (h : heap) (l : loc) : option LaunchSettings.t :=
  match h !! l with Some (O_LaunchSettings v) => Some v | _ => None end.
Definition get_Permissions (h : heap) (l : loc) : option Permissions.t :=
  match h !! l with Some (O_Permissions v) => Some v | _ => None end.
Definition get_DataSharing (h : heap) (l : loc) : option DataSharing.t :=
  match h !! l with Some (O_DataSharing v) => Some v | _ => None end.
Definition get_Placements (h : heap) (l : loc) : option Placements.t :=
  match h !! l with Some (O_Placements v) => Some v | _ => None end.
Definition get_OverrideUris (h : heap) (l : loc) : option OverrideUris.t :=
  match h !! l with Some (O_OverrideUris v) => Some v | _ => None end.
Definition get_Naming (h : heap) (l : loc) : option Naming.t :=
  match h !! l with Some (O_Naming v) => Some v | _ => None end.
Definition get_Icons (h : heap) (l : loc) : option Icons.t :=
  match h !! l with Some (O_Icons v) => Some v | _ => None end.

(** The value of the snapshot at [state]: every reference followed. *)
Definition snapshot (h : heap) (state : loc) : option State.t :=
  o ← get_State h state;
  ls ← get_LaunchSettings h (launchSettings o);
  p ← get_Permissions h (permissions o);
  d ← get_DataSharing h (data_sharing o);
  pl ← get_Placements h (placements o);
  ou ← get_OverrideUris h (override_uris o);
  n ← get_Naming h (naming o);
  i ← get_Icons h (icons o);
  Some (State.mk ls p d pl ou n i).

(** Computations over the store; [None] is a read at a location that
    holds no object of the expected kind. *)
Definition M (A : Type) : Type := heap → option (A * heap).

Definition bind {A B} (m : M A) (f : A → M B) : M B :=
  λ h, match m h with
       | Some (x, h') => f x h'
       | None => None
       end.
Definition read {A} (get : heap → loc → option A) (l : loc) : M A :=
  λ h, match get h l with
       | Some v => Some (v, h)
       | None => None
       end.
(** An object literal: a new object at a location not in use. *)
Definition alloc (o : Obj) : M loc :=
  λ h, let l := fresh (dom h) in Some (l, <[l := o]> h).

Notation "'let*' x ':=' m 'in' f" := (bind m (λ x, f))
  (at level 10, x name, m at level 100, f at level 200, only parsing).

(** [updateLaunchSetting(key, value)] *)
Definition updateLaunchSetting (key : LaunchKey) (value : LaunchValue key)
    (state : loc) : M loc :=
  let* o := read get_State state in
  let* ls := read get_LaunchSettings (launchSettings o) in
  let* ls' := alloc (O_LaunchSettings (launchSettings_with key value ls)) in
  alloc (O_State (mk ls' (permissions o) (data_sharing o) (placements o)
                     (override_uris o) (naming o) (icons o))).

Definition toggleScope (scope : LtiScope) (state : loc) : M loc :=
  let* o := read get_State state in
  let* p := read get_Permissions (permissions o) in
  let* p' := alloc (O_Permissions (permissions_toggleScope scope p)) in
  alloc (O_State (mk (launchSettings o) p' (data_sharing o) (placements o)
                     (override_uris o) (naming o) (icons o))).

Definition setPrivacyLevel (privacyLevel : LtiPrivacyLevel) (state : loc) : M loc :=
  let* o := read get_State state in
  let* d := read get_DataSharing (data_sharing o) in
  let* d' := alloc (O_DataSharing (data_sharing_setPrivacyLevel privacyLevel d)) in
  alloc (O_State (mk (launchSettings o) (permissions o) d' (placements o)
                     (override_uris o) (naming o) (icons o))).

Definition toggleCourseNavigationDefaultDisabled (state : loc) : M loc :=
  let* o := read get_State state in
  let* pl := read get_Placements (placements o) in
  let* pl' := alloc (O_Placements (placements_toggleCourseNavigationDefaultDisabled pl)) in
  alloc (O_State (mk (launchSettings o) (permissions o) (data_sharing o) pl'
                     (override_uris o) (naming o) (icons o))).

Definition togglePlacement (placement : LtiPlacement) (state : loc) : M loc :=
  let* o := read get_State state in
  let* pl := read get_Placements (placements o) in
  let* pl' := alloc (O_Placements (placements_togglePlacement placement pl)) in
  alloc (O_State (mk (launchSettings o) (permissions o) (data_sharing o) pl'
                     (override_uris o) (naming o) (icons o))).

Definition dispatch (a : Action) : loc → M loc :=
  match a with
  | SetRedirectURIs v => updateLaunchSetting K_redirectURIs (Some v)
  | SetDefaultTargetLinkURI v => updateLaunchSetting K_targetLinkURI (Some v)
  | SetOIDCInitiationURI v => updateLaunchSetting K_openIDConnectInitiationURL (Some v)
  | SetJwkMethod v => updateLaunchSetting K_JwkMethod v
  | SetJwkURL v => updateLaunchSetting K_JwkURL (Some v)
  | SetJwk v => updateLaunchSetting K_Jwk (Some v)
  | SetDomain v => updateLaunchSetting K_domain (Some v)
  | SetCustomFields v => updateLaunchSetting K_customFields (Some v)
  | ToggleScope s => toggleScope s
  | SetPrivacyLevel v => setPrivacyLevel v
  | TogglePlacement p => togglePlacement p
  | ToggleCourseNavigationDefaultDisabled => toggleCourseNavigationDefaultDisabled
  end.

(** A sequence of calls: each action starts from the snapshot the one
    before it stored. *)
Definition ret {A} (x : A) : M A := λ h, Some (x, h).

Fixpoint run (actions : list Action) (state : loc) : M loc :=
  match actions with
  | [] => ret state
  | a :: rest => let* state' := dispatch a state in run rest state'
  end.

(** The section an action rebuilds. *)
Definition target (a : Action) : Section_ :=
  match a with
  | ToggleScope _ => S_permissions
  | SetPrivacyLevel _ => S_data_sharing
  | TogglePlacement _ | ToggleCourseNavigationDefaultDisabled => S_placements
  | _ => S_launchSettings
  end.

End Refs.

(** ** Vocabulary of the statements *)

(** The entries of an optional list, an absent list having none. *)
Definition entries (xs : option (list string)) : list string := default [] xs.

(** Two optional lists with the same entries, whatever their order and
    multiplicity. *)
Definition same_entries (xs ys : option (list string)) : Prop :=
  ∀ x, x ∈ entries xs ↔ x ∈ entries ys.

(** Two snapshots that agree on every section, the two collections being
    compared by their entries and the flag by its truth value. *)
Record same_configuration (s1 s2 : State.t) : Prop := {
  same_launchSettings : State.launchSettings s1 = State.launchSettings s2;
  same_scopes :
    same_entries (Permissions.scopes (State.permissions s1))
                 (Permissions.scopes (State.permissions s2));
  same_data_sharing : State.data_sharing s1 = State.data_sharing s2;
  same_placements :
    same_entries (Placements.placements (State.placements s1))
                 (Placements.placements (State.placements s2));
  same_courseNavigationDefaultDisabled :
    truthy_bool (Placements.courseNavigationDefaultDisabled (State.placements s1))
    = truthy_bool (Placements.courseNavigationDefaultDisabled (State.placements s2));
  same_override_uris : State.override_uris s1 = State.override_uris s2;
  same_naming : State.naming s1 = State.naming s2;
  same_icons : State.icons s1 = State.icons s2
}.

(** Neither collection of the snapshot lists an entry twice. *)
Definition duplicate_free (state : State.t) : Prop :=
  NoDup (entries (Permissions.scopes (State.permissions state)))
  ∧ NoDup (entries (Placements.placements (State.placements state))).

(** The string has an occurrence of the character. *)
Fixpoint has_char (c : Ascii.ascii) (s : string) : bool :=
  match s with
  | EmptyString => false
  | String d rest => Ascii.eqb d c || has_char c rest
  end.

(** The characters ['\n'] and ['=']. *)
Definition LF_char : Ascii.ascii := Ascii.ascii_of_nat 10.
Definition EQ_char : Ascii.ascii := Ascii.ascii_of_nat 61.

(** ** Sample data *)

Definition sample_launchSettings : LaunchSettings.t :=
  LaunchSettings.mk (Some "https://x.com/a") (Some "https://x.com/launch")
    (Some "https://x.com/oidc") (Some public_jwk) None None (Some "x.com") None.

(** A snapshot with two scopes and two placements, the flag not set. *)
Definition sample_state : State.t :=
  State.mk sample_launchSettings
    (Permissions.mk (Some ["scope/lineitem"; "scope/score"]))
    (DataSharing.mk (Some "anonymous"))
    (Placements.mk (Some ["course_navigation"; "account_navigation"]) None)
    (OverrideUris.mk ∅) (Naming.mk (Some "Tool") (Some "") (Some "") ∅) (Icons.mk ∅).

(** The same snapshot with neither collection present. *)
Definition bare_state : State.t :=
  State.mk sample_launchSettings (Permissions.mk None) (DataSharing.mk None)
    (Placements.mk None None)
    (OverrideUris.mk ∅) (Naming.mk None None None ∅) (Icons.mk ∅).

(** A document without a structured key: its [public_jwk] is [undefined],
    and [JSON.stringify(undefined)] is [undefined]. *)
Definition no_key_stringify (key : option Empty_set) : option string := None.

(** A document with the given redirect URIs, key URL, custom fields and
    placement records. *)
Definition sample_config (redirect_uris : option (list string))
    (public_jwk_url : option string)
    (custom_fields : option (list (string * string)))
    (placements : list InternalPlacement.t) : InternalLtiConfiguration.t Empty_set :=
  InternalLtiConfiguration.mk "Tool" "https://x.com/launch" "https://x.com/oidc"
    redirect_uris public_jwk_url None (Some "x.com") custom_fields
    ["scope/lineitem"] (Some "anonymous") placements.

(** Placement records: course navigation without and with the
    default-disabled flag, and with a message type and a URL of its own;
    account navigation with a URL, a text and an icon. *)
Definition course_navigation_plain : InternalPlacement.t :=
  InternalPlacement.mk "course_navigation" None None None None None.
Definition course_navigation_disabled : InternalPlacement.t :=
  InternalPlacement.mk "course_navigation" None None None (Some "disabled") None.
Definition course_navigation_deep_link : InternalPlacement.t :=
  InternalPlacement.mk "course_navigation" (Some "LtiDeepLinkingRequest")
    (Some "https://x.com/first") (Some "First") None (Some "https://x.com/first.png").
Definition account_navigation_full : InternalPlacement.t :=
  InternalPlacement.mk "account_navigation" None (Some "https://x.com/account")
    (Some "Account tool") None (Some "https://x.com/icon.png").

(** A store that holds [sample_state]: its seven sections at the locations
    1 to 7 and the snapshot object at 8. *)
Definition sample_heap : Refs.heap :=
  list_to_map
    [(1%positive, Refs.O_LaunchSettings (State.launchSettings sample_state));
     (2%positive, Refs.O_Permissions (State.permissions sample_state));
     (3%positive, Refs.O_DataSharing (State.data_sharing sample_state));
     (4%positive, Refs.O_Placements (State.placements sample_state));
     (5%positive, Refs.O_OverrideUris (State.override_uris sample_state));
     (6%positive, Refs.O_Naming (State.naming sample_state));
     (7%positive, Refs.O_Icons (State.icons sample_state));
     (8%positive, Refs.O_State (Refs.mk 1%positive 2%positive 3%positive 4%positive
                                5%positive 6%positive 7%positive))].

(** Reduces the projections of the snapshot records applied to their
    constructors, and nothing else. *)
Ltac projections :=
  cbn [State.launchSettings State.permissions State.data_sharing State.placements
       State.override_uris State.naming State.icons
       Permissions.scopes DataSharing.privacy_level
       Placements.placements Placements.courseNavigationDefaultDisabled] in *.

(** ** The toggled list *)

Lemma includes_true (x : string) (xs : list string) :
  includes x xs = true ↔ x ∈ xs.
Proof. unfold includes. apply bool_decide_eq_true. Qed.

Lemma includes_false (x : string) (xs : list string) :
  includes x xs = false ↔ x ∉ xs.
Proof. unfold includes. apply bool_decide_eq_false. Qed.

Lemma elem_of_filter_ne (y x : string) (xs : list string) :
  y ∈ filter_ne x xs ↔ y ≠ x ∧ y ∈ xs.
Proof. unfold filter_ne. by rewrite list_elem_of_filter. Qed.

Lemma filter_ne_absent (x : string) (xs : list string) :
  x ∉ xs → filter_ne x xs = xs.
Proof.
  induction xs as [|y ys IH]; intros Hx; [done|].
  apply not_elem_of_cons in Hx as [Hne Hys].
  unfold filter_ne in *. rewrite filter_cons_True by congruence.
  by rewrite IH.
Qed.

Lemma filter_ne_snoc (x : string) (xs : list string) :
  filter_ne x (xs ++ [x]) = filter_ne x xs.
Proof.
  unfold filter_ne. rewrite filter_app, filter_cons_False by (intros H; by apply H).
  by rewrite filter_nil, app_nil_r.
Qed.

Lemma toggled_present (x : string) (l : list string) :
  x ∈ l → toggled x (Some l) = filter_ne x l.
Proof. intros H. simpl. by apply includes_true in H as ->. Qed.

Lemma toggled_absent (x : string) (l : list string) :
  x ∉ l → toggled x (Some l) = l ++ [x].
Proof. intros H. simpl. by apply includes_false in H as ->. Qed.

Lemma toggled_elem_of (y x : string) (xs : option (list string)) :
  y ∈ toggled x xs ↔
  (y ≠ x ∧ y ∈ entries xs) ∨ (y = x ∧ x ∉ entries xs).
Proof.
  destruct xs as [l|]; simpl.
  - destruct (includes x l) eqn:E.
    + apply includes_true in E. rewrite elem_of_filter_ne.
      split; [tauto|]. intros [H|[-> H]]; [done|contradiction].
    + apply includes_false in E. rewrite elem_of_app, list_elem_of_singleton.
      destruct (decide (y = x)) as [->|Hne]; [tauto|].
      split; [intros [H|H]; [tauto|contradiction] | intros [[_ H]|[H _]]; [tauto|contradiction]].
  - rewrite list_elem_of_singleton. split.
    + intros ->. right. split; [done|]. apply not_elem_of_nil.
    + intros [[_ H]|[H _]]; [|done]. by apply not_elem_of_nil in H.
Qed.

Lemma toggled_twice_entries (x : string) (xs : option (list string)) :
  same_entries (Some (toggled x (Some (toggled x xs)))) xs.
Proof.
  intros y. change (y ∈ toggled x (Some (toggled x xs)) ↔ y ∈ entries xs).
  rewrite toggled_elem_of.
  change (entries (Some (toggled x xs))) with (toggled x xs).
  rewrite !toggled_elem_of.
  destruct (decide (y = x)) as [->|Hne]; [|tauto].
  destruct (decide (x ∈ entries xs)); tauto.
Qed.

Lemma toggled_twice_absent (x : string) (l : list string) :
  x ∉ l → toggled x (Some (toggled x (Some l))) = l.
Proof.
  intros H. rewrite (toggled_absent x l H).
  rewrite toggled_present by (apply elem_of_app; right; by apply list_elem_of_singleton).
  rewrite filter_ne_snoc. by apply filter_ne_absent.
Qed.

Lemma toggled_NoDup (x : string) (xs : option (list string)) :
  NoDup (entries xs) → NoDup (toggled x xs).
Proof.
  destruct xs as [l|]; simpl; intros Hl.
  - destruct (includes x l) eqn:E.
    + unfold filter_ne. by apply NoDup_filter.
    + apply includes_false in E. apply NoDup_app. split_and!; [done| |apply NoDup_singleton].
      intros y Hy Hy'. apply list_elem_of_singleton in Hy' as ->. done.
  - apply NoDup_singleton.
Qed.

(** ** Toggling a scope *)

(** C6: [toggleScope] removes the scope from [permissions.scopes] when it is
    listed there (every occurrence goes, the other entries keep their order)
    and appends it at the end when it is not; an absent list counts as
    empty, so the result is then the one-entry list of the scope.  The
    function is total and every other section is the one of the input. *)
Theorem toggleScope_removes_or_appends (state : State.t) (scope : LtiScope) :
  let scopes := Permissions.scopes (State.permissions state) in
  let state' := toggleScope scope state in
  let scopes' := Permissions.scopes (State.permissions state') in
  (∀ l, scopes = Some l → scope ∈ l →
     scopes' = Some (filter (λ s, s ≠ scope) l) ∧ scope ∉ filter (λ s, s ≠ scope) l)
  ∧ (∀ l, scopes = Some l → scope ∉ l → scopes' = Some (l ++ [scope]))
  ∧ (scopes = None → scopes' = Some [scope])
  ∧ State.launchSettings state' = State.launchSettings state
  ∧ State.data_sharing state' = State.data_sharing state
  ∧ State.placements state' = State.placements state
  ∧ State.override_uris state' = State.override_uris state
  ∧ State.naming state' = State.naming state
  ∧ State.icons state' = State.icons state.
Proof.
  simpl. split_and!; try reflexivity.
  - intros l -> Hin. rewrite toggled_present by done. split; [done|].
    rewrite list_elem_of_filter. tauto.
  - intros l -> Hin. by rewrite toggled_absent.
  - by intros ->.
Qed.

Lemma toggleScope_removes_or_appends_witness :
  Permissions.scopes (State.permissions (toggleScope "scope/score" sample_state))
    = Some ["scope/lineitem"]
  ∧ Permissions.scopes (State.permissions (toggleScope "scope/result" sample_state))
    = Some ["scope/lineitem"; "scope/score"; "scope/result"]
  ∧ Permissions.scopes (State.permissions (toggleScope "scope/score" bare_state))
    = Some ["scope/score"].
Proof.
  split; [|split].
  - destruct (toggleScope_removes_or_appends sample_state "scope/score")
      as (Hremove & _).
    destruct (Hremove ["scope/lineitem"; "scope/score"] eq_refl) as [Heq _].
    + apply list_elem_of_In. simpl. tauto.
    + rewrite Heq. vm_compute. reflexivity.
  - destruct (toggleScope_removes_or_appends sample_state "scope/result")
      as (_ & Happend & _).
    apply (Happend ["scope/lineitem"; "scope/score"] eq_refl).
    intros Hin. apply list_elem_of_In in Hin. simpl in Hin.
    destruct Hin as [H|[H|[]]]; discriminate H.
  - destruct (toggleScope_removes_or_appends bare_state "scope/score")
      as (_ & _ & Habsent & _).
    apply Habsent. reflexivity.
Defined.

(** ** Duplicate-free collections *)

(** C7: when neither [permissions.scopes] nor [placements.placements] lists
    an entry twice, the same holds of the snapshot any of the twelve actions
    produces. *)
Theorem dispatch_preserves_duplicate_free (a : Action) (state : State.t) :
  duplicate_free state → duplicate_free (dispatch a state).
Proof.
  intros [Hscopes Hplacements].
  destruct a; split; simpl; try assumption.
  - by apply toggled_NoDup.
  - by apply toggled_NoDup.
Qed.

Lemma dispatch_preserves_duplicate_free_witness :
  duplicate_free (dispatch (TogglePlacement "account_navigation") sample_state)
  ∧ duplicate_free (dispatch (ToggleScope "scope/result") sample_state).
Proof.
  split; apply dispatch_preserves_duplicate_free;
    (split; simpl; apply NoDup_ListNoDup; repeat constructor; simpl; intuition discriminate).
Defined.

(** Toggling ["account_navigation"] when it is not listed adds it, toggling
    it again removes it, and no list on the way has a duplicate. *)
Example togglePlacement_account_navigation :
  let state1 := togglePlacement "account_navigation" bare_state in
  let state2 := togglePlacement "account_navigation" state1 in
  Placements.placements (State.placements state1) = Some ["account_navigation"]
  ∧ Placements.placements (State.placements state2) = Some []
  ∧ duplicate_free bare_state ∧ duplicate_free state1 ∧ duplicate_free state2.
Proof.
  split_and!; try reflexivity;
    (split; simpl; apply NoDup_ListNoDup; repeat constructor; simpl; tauto).
Qed.

(** ** Toggling twice *)

(** Toggling twice a placement that is listed moves it to the end of the
    list: the snapshot is not the one the toggles started from. *)
Lemma togglePlacement_twice_reorders :
  Placements.placements (State.placements sample_state)
    = Some ["course_navigation"; "account_navigation"]
  ∧ Placements.placements
      (State.placements
         (togglePlacement "course_navigation"
            (togglePlacement "course_navigation" sample_state)))
    = Some ["account_navigation"; "course_navigation"]
  ∧ togglePlacement "course_navigation"
      (togglePlacement "course_navigation" sample_state) ≠ sample_state.
Proof.
  split; [reflexivity|]. split; [vm_compute; reflexivity|].
  intros H. apply (f_equal (λ s, Placements.placements (State.placements s))) in H.
  vm_compute in H. discriminate H.
Qed.

(** With the flag or a list absent, two toggles leave it present. *)
Lemma toggle_twice_absent_becomes_present :
  Placements.courseNavigationDefaultDisabled
    (State.placements
       (toggleCourseNavigationDefaultDisabled
          (toggleCourseNavigationDefaultDisabled bare_state))) = Some false
  ∧ Placements.courseNavigationDefaultDisabled (State.placements bare_state) = None
  ∧ Permissions.scopes
      (State.permissions (toggleScope "scope/score" (toggleScope "scope/score" bare_state)))
    = Some []
  ∧ Permissions.scopes (State.permissions bare_state) = None.
Proof. repeat split; vm_compute; reflexivity. Qed.

(** The list two toggles of the same entry leave: the entries as they were
    when the entry was not among them, and otherwise the entries without it
    followed by it. *)
Lemma toggled_twice_list (x : string) (xs : option (list string)) :
  (x ∈ entries xs →
   toggled x (Some (toggled x xs)) = filter (λ s, s ≠ x) (entries xs) ++ [x])
  ∧ (x ∉ entries xs → toggled x (Some (toggled x xs)) = entries xs).
Proof.
  split; intros Hx.
  - destruct xs as [l|]; simpl entries in *; [|by apply not_elem_of_nil in Hx].
    rewrite (toggled_present x l Hx).
    rewrite toggled_absent by (rewrite elem_of_filter_ne; tauto).
    reflexivity.
  - destruct xs as [l|]; simpl entries in *.
    + by apply toggled_twice_absent.
    + assert (toggled x None = toggled x (Some [])) as ->.
      { symmetry. by apply toggled_absent. }
      by apply toggled_twice_absent.
Qed.

(** C1, as the code has it: applying the same toggle twice leaves every
    other section, and the other property of the toggled section, exactly as
    it was.  The toggled list comes back with the same entries: as it was
    when it did not hold the entry (an absent list as the empty list), and
    otherwise with every occurrence of the entry removed and the entry
    added again at the end.  The flag comes back as its truth value, an
    absent flag as false.  The snapshot itself comes back when the toggled
    list is present and did not hold the entry, and when the flag is
    present. *)
Theorem toggle_twice (state : State.t) :
  (∀ scope,
     let state'' := toggleScope scope (toggleScope scope state) in
     let scopes := Permissions.scopes (State.permissions state) in
     same_configuration state'' state
     ∧ State.placements state'' = State.placements state
     ∧ (scope ∈ entries scopes →
        Permissions.scopes (State.permissions state'')
        = Some (filter (λ s, s ≠ scope) (entries scopes) ++ [scope]))
     ∧ (scope ∉ entries scopes →
        Permissions.scopes (State.permissions state'') = Some (entries scopes)))
  ∧ (∀ placement,
       let state'' := togglePlacement placement (togglePlacement placement state) in
       let placements := Placements.placements (State.placements state) in
       same_configuration state'' state
       ∧ State.permissions state'' = State.permissions state
       ∧ Placements.courseNavigationDefaultDisabled (State.placements state'')
         = Placements.courseNavigationDefaultDisabled (State.placements state)
       ∧ (placement ∈ entries placements →
          Placements.placements (State.placements state'')
          = Some (filter (λ p, p ≠ placement) (entries placements) ++ [placement]))
       ∧ (placement ∉ entries placements →
          Placements.placements (State.placements state'') = Some (entries placements)))
  ∧ (let state'' :=
       toggleCourseNavigationDefaultDisabled (toggleCourseNavigationDefaultDisabled state) in
     same_configuration state'' state
     ∧ State.permissions state'' = State.permissions state
     ∧ Placements.placements (State.placements state'')
       = Placements.placements (State.placements state)
     ∧ Placements.courseNavigationDefaultDisabled (State.placements state'')
       = Some (truthy_bool
                 (Placements.courseNavigationDefaultDisabled (State.placements state))))
  ∧ (∀ scope l,
       Permissions.scopes (State.permissions state) = Some l → scope ∉ l →
       toggleScope scope (toggleScope scope state) = state)
  ∧ (∀ placement l,
       Placements.placements (State.placements state) = Some l → placement ∉ l →
       togglePlacement placement (togglePlacement placement state) = state)
  ∧ (is_Some (Placements.courseNavigationDefaultDisabled (State.placements state)) →
       toggleCourseNavigationDefaultDisabled (toggleCourseNavigationDefaultDisabled state)
       = state).
Proof.
  destruct state as [ls [scopes] ds [placements flag] ou n i].
  split_and!.
  - intros scope. cbv zeta. projections.
    unfold toggleScope, permissions_toggleScope. projections.
    destruct (toggled_twice_list scope scopes) as [Hin Hout].
    split_and!; [|reflexivity| |].
    + split; simpl; try reflexivity; try done. apply toggled_twice_entries.
    + intros H. by rewrite Hin.
    + intros H. by rewrite Hout.
  - intros placement. cbv zeta. projections.
    unfold togglePlacement, placements_togglePlacement. projections.
    destruct (toggled_twice_list placement placements) as [Hin Hout].
    split_and!; [|reflexivity|reflexivity| |].
    + split; simpl; try reflexivity; try done. apply toggled_twice_entries.
    + intros H. by rewrite Hin.
    + intros H. by rewrite Hout.
  - cbv zeta. unfold toggleCourseNavigationDefaultDisabled,
      placements_toggleCourseNavigationDefaultDisabled. projections.
    split_and!; [|reflexivity|reflexivity|].
    + split; simpl; try reflexivity; try done.
      by rewrite negb_involutive.
    + simpl truthy_bool. by rewrite negb_involutive.
  - intros scope l. projections. intros -> Hl.
    unfold toggleScope, permissions_toggleScope. projections.
    by rewrite toggled_twice_absent.
  - intros placement l. projections. intros -> Hl.
    unfold togglePlacement, placements_togglePlacement. projections.
    by rewrite toggled_twice_absent.
  - projections. intros [b ->].
    unfold toggleCourseNavigationDefaultDisabled,
      placements_toggleCourseNavigationDefaultDisabled.
    projections. simpl truthy_bool. by rewrite negb_involutive.
Qed.

Lemma toggle_twice_witness :
  toggleScope "scope/result" (toggleScope "scope/result" sample_state) = sample_state
  ∧ Placements.placements
      (State.placements
         (togglePlacement "course_navigation"
            (togglePlacement "course_navigation" sample_state)))
    = Some ["account_navigation"; "course_navigation"]
  ∧ State.permissions
      (togglePlacement "course_navigation"
         (togglePlacement "course_navigation" sample_state))
    = State.permissions sample_state.
Proof.
  destruct (toggle_twice sample_state) as (_ & Hplacement & _ & Hscope & _).
  split; [|split].
  - apply (Hscope "scope/result" ["scope/lineitem"; "scope/score"] eq_refl).
    intros Hin. apply list_elem_of_In in Hin. simpl in Hin.
    destruct Hin as [H|[H|[]]]; discriminate H.
  - destruct (Hplacement "course_navigation") as (_ & _ & _ & Hlisted & _).
    rewrite Hlisted; [vm_compute; reflexivity|].
    simpl. left.
  - by destruct (Hplacement "course_navigation") as (_ & Hpermissions & _).
Defined.

(** ** Strings built by the initializer *)

Lemma append_assoc (s1 s2 s3 : string) : (s1 +:+ s2) +:+ s3 = s1 +:+ (s2 +:+ s3).
Proof.
  induction s1 as [|c s1 IH]; [done|].
  change (String c ((s1 +:+ s2) +:+ s3) = String c (s1 +:+ (s2 +:+ s3))).
  by rewrite IH.
Qed.

Lemma append_empty_r (s : string) : s +:+ "" = s.
Proof.
  induction s as [|c s IH]; [done|].
  change (String c (s +:+ "") = String c s). by rewrite IH.
Qed.

(** [join] is the standard library's [String.concat]. *)
Lemma join_concat (sep : string) (xs : list string) : join sep xs = String.concat sep xs.
Proof.
  induction xs as [|x [|y ys] IH]; [done..|].
  change (x +:+ sep +:+ join sep (y :: ys) = x +:+ sep +:+ String.concat sep (y :: ys)).
  by rewrite IH.
Qed.

(** The reducer of [custom_fields] concatenates the lines of the entries,
    in their order, after the accumulator. *)
Lemma fold_customFields_step (entries : list (string * string)) (acc : string) :
  fold_left customFields_step entries acc
  = acc +:+ foldr String.append "" (customFields_line <$> entries).
Proof.
  revert acc. induction entries as [|e es IH]; intros acc.
  - simpl. by rewrite append_empty_r.
  - change (fold_left customFields_step es (acc +:+ customFields_line e)
            = acc +:+ (customFields_line e
                       +:+ foldr String.append "" (customFields_line <$> es))).
    by rewrite IH, append_assoc.
Qed.

(** ** Launch settings of the first snapshot *)

Section LaunchSettingsOfInitializer.
Context {Json : Type} (JSON_stringify : option Json → option string).

Local Abbreviation init := (initialOverlayStateFromInternalConfig JSON_stringify).

(** C3, as the code has it: [launchSettings.redirectURIs] is the input list
    joined with line feeds whenever the list is present, the empty list
    giving the empty string; it is unset only when the list is absent. *)
Theorem initial_redirectURIs (internalConfig : InternalLtiConfiguration.t Json) :
  let redirectURIs := LaunchSettings.redirectURIs (State.launchSettings (init internalConfig)) in
  (∀ uris, InternalLtiConfiguration.redirect_uris internalConfig = Some uris →
     redirectURIs = Some (String.concat LF uris))
  ∧ (InternalLtiConfiguration.redirect_uris internalConfig = Some [] →
     redirectURIs = Some "")
  ∧ (InternalLtiConfiguration.redirect_uris internalConfig = None ↔ redirectURIs = None).
Proof.
  simpl. split_and!.
  - intros uris ->. simpl. by rewrite join_concat.
  - by intros ->.
  - by destruct (InternalLtiConfiguration.redirect_uris internalConfig).
Qed.

(** C4, as the code has it: [launchSettings.JwkMethod] is ['public_jwk_url']
    exactly when the public-key URL is present and is not the empty string,
    whatever the literal key; it is ['public_jwk'] otherwise. *)
Theorem initial_JwkMethod (internalConfig : InternalLtiConfiguration.t Json) :
  let JwkMethod := LaunchSettings.JwkMethod (State.launchSettings (init internalConfig)) in
  (JwkMethod = Some public_jwk_url ↔
     ∃ url, InternalLtiConfiguration.public_jwk_url internalConfig = Some url ∧ url ≠ "")
  ∧ (JwkMethod = Some public_jwk ↔
     InternalLtiConfiguration.public_jwk_url internalConfig = None
     ∨ InternalLtiConfiguration.public_jwk_url internalConfig = Some "").
Proof.
  simpl. destruct (InternalLtiConfiguration.public_jwk_url internalConfig) as [url|]; simpl.
  - destruct (decide (url = "")) as [->|Hne].
    + split; split; try done.
      * intros (url & [= <-] & Hne). done.
      * intros _. by right.
    + rewrite bool_decide_eq_false_2 by done. simpl. split; split; try done.
      * intros _. by exists url.
      * intros [H|[= H]]; done.
  - split; split; try done.
    + intros (url & H & _). done.
    + intros _. by left.
Qed.

(** C5: when the custom-fields mapping is present, [launchSettings.customFields]
    is the concatenation of the lines [key=value\n] of its entries, in the
    order the mapping enumerates them; the mapping [{"a":"1","b":"2"}] gives
    ["a=1\nb=2\n"]. *)
Theorem initial_customFields (internalConfig : InternalLtiConfiguration.t Json) :
  let customFields := LaunchSettings.customFields (State.launchSettings (init internalConfig)) in
  (∀ entries, InternalLtiConfiguration.custom_fields internalConfig = Some entries →
     customFields
     = Some (foldr String.append "" ((λ e, e.1 +:+ "=" +:+ e.2 +:+ LF) <$> entries)))
  ∧ (InternalLtiConfiguration.custom_fields internalConfig = Some [("a", "1"); ("b", "2")] →
     customFields = Some ("a=1" +:+ LF +:+ "b=2" +:+ LF)).
Proof.
  simpl. split.
  - intros entries ->. by rewrite fold_customFields_step.
  - by intros ->.
Qed.

End LaunchSettingsOfInitializer.

(** An empty list of redirect URIs gives the empty string, not an unset
    field. *)
Lemma initial_redirectURIs_of_empty_list :
  InternalLtiConfiguration.redirect_uris (sample_config (Some []) None None []) = Some []
  ∧ LaunchSettings.redirectURIs
      (State.launchSettings
         (initialOverlayStateFromInternalConfig no_key_stringify
            (sample_config (Some []) None None [])))
    = Some "".
Proof. split; reflexivity. Qed.

Lemma initial_redirectURIs_witness :
  LaunchSettings.redirectURIs
    (State.launchSettings
       (initialOverlayStateFromInternalConfig no_key_stringify
          (sample_config (Some ["https://x.com/a"; "https://x.com/b"]) None None [])))
  = Some ("https://x.com/a" +:+ LF +:+ "https://x.com/b").
Proof.
  destruct (initial_redirectURIs no_key_stringify
              (sample_config (Some ["https://x.com/a"; "https://x.com/b"]) None None []))
    as (Hjoin & _).
  apply (Hjoin ["https://x.com/a"; "https://x.com/b"]). reflexivity.
Defined.

(** A public-key URL that is present and empty gives ['public_jwk']. *)
Lemma initial_JwkMethod_of_empty_url :
  InternalLtiConfiguration.public_jwk_url (sample_config None (Some "") None []) = Some ""
  ∧ LaunchSettings.JwkMethod
      (State.launchSettings
         (initialOverlayStateFromInternalConfig no_key_stringify
            (sample_config None (Some "") None [])))
    = Some public_jwk.
Proof. split; reflexivity. Qed.

Lemma initial_JwkMethod_witness :
  LaunchSettings.JwkMethod
    (State.launchSettings
       (initialOverlayStateFromInternalConfig no_key_stringify
          (sample_config None (Some "https://x.com/jwks") None [])))
  = Some public_jwk_url.
Proof.
  destruct (initial_JwkMethod no_key_stringify
              (sample_config None (Some "https://x.com/jwks") None []))
    as ([_ Hurl] & _).
  apply Hurl. exists "https://x.com/jwks". split; [reflexivity|discriminate].
Defined.

Lemma initial_customFields_witness :
  LaunchSettings.customFields
    (State.launchSettings
       (initialOverlayStateFromInternalConfig no_key_stringify
          (sample_config None None (Some [("a", "1"); ("b", "2")]) [])))
  = Some ("a=1" +:+ LF +:+ "b=2" +:+ LF).
Proof.
  destruct (initial_customFields no_key_stringify
              (sample_config None None (Some [("a", "1"); ("b", "2")]) []))
    as (_ & Hab).
  apply Hab. reflexivity.
Defined.

(** ** Placement records of the first snapshot *)

(** A reducer that assigns [acc[key p] = val p] for each record keeps, for
    every key, the value of the last record with that key. *)
Section AssignEach.
Context {A V : Type} (key : A → string) (val : A → V).
Context (step : gmap string V → A → gmap string V).
Context (step_assigns : ∀ acc p, step acc p = <[key p := val p]> acc).

Lemma fold_assign_other (ps : list A) (acc : gmap string V) (k : string) :
  (∀ q, q ∈ ps → key q ≠ k) → fold_left step ps acc !! k = acc !! k.
Proof.
  revert acc. induction ps as [|p ps IH]; intros acc Hps; [done|].
  simpl. rewrite IH.
  - rewrite step_assigns. apply lookup_insert_ne. apply Hps. left.
  - intros q Hq. apply Hps. by right.
Qed.

Lemma fold_assign_last (before after : list A) (r : A) (acc : gmap string V) :
  (∀ q, q ∈ after → key q ≠ key r) →
  fold_left step (before ++ r :: after) acc !! key r = Some (val r).
Proof.
  intros Hafter. rewrite fold_left_app. simpl.
  rewrite fold_assign_other by done.
  rewrite step_assigns. apply lookup_insert_eq.
Qed.

End AssignEach.

(** [find] returns the first record of the kind. *)
Lemma find_course_navigation_first (before after : list InternalPlacement.t)
    (r : InternalPlacement.t) :
  (∀ q, q ∈ before → InternalPlacement.placement q ≠ "course_navigation") →
  InternalPlacement.placement r = "course_navigation" →
  find_course_navigation (before ++ r :: after) = Some r.
Proof.
  intros Hbefore Hr. unfold find_course_navigation.
  induction before as [|p before IH]; simpl.
  - by rewrite bool_decide_eq_true_2.
  - rewrite bool_decide_eq_false_2 by (apply Hbefore; left).
    apply IH. intros q Hq. apply Hbefore. by right.
Qed.

Lemma find_course_navigation_Some (ps : list InternalPlacement.t) (r : InternalPlacement.t) :
  find_course_navigation ps = Some r →
  ∃ before after,
    ps = before ++ r :: after
    ∧ (∀ q, q ∈ before → InternalPlacement.placement q ≠ "course_navigation")
    ∧ InternalPlacement.placement r = "course_navigation".
Proof.
  unfold find_course_navigation.
  induction ps as [|p ps IH]; simpl; [done|].
  destruct (decide (InternalPlacement.placement p = "course_navigation")) as [Hp|Hp].
  - rewrite bool_decide_eq_true_2 by done. intros [= ->].
    exists [], ps. split_and!; [done| |done]. intros q Hq. by apply not_elem_of_nil in Hq.
  - rewrite bool_decide_eq_false_2 by done. intros Hfind.
    destruct (IH Hfind) as (before & after & -> & Hbefore & Hr).
    exists (p :: before), after. split_and!; [done| |done].
    intros q [->|Hq]%elem_of_cons; [done|by apply Hbefore].
Qed.

Lemma find_course_navigation_None (ps : list InternalPlacement.t) :
  find_course_navigation ps = None ↔
  ∀ q, q ∈ ps → InternalPlacement.placement q ≠ "course_navigation".
Proof.
  unfold find_course_navigation. induction ps as [|p ps IH]; simpl.
  - split; [|done]. intros _ q Hq. by apply not_elem_of_nil in Hq.
  - destruct (decide (InternalPlacement.placement p = "course_navigation")) as [Hp|Hp].
    + rewrite bool_decide_eq_true_2 by done. split; [done|].
      intros H. exfalso. apply (H p); [left|done].
    + rewrite bool_decide_eq_false_2 by done. rewrite IH. split.
      * intros H q [->|Hq]%elem_of_cons; [done|by apply H].
      * intros H q Hq. apply H. by right.
Qed.

Lemma at_most_one_unique {A} (P : A → Prop) `{∀ x, Decision (P x)} (l : list A) (x y : A) :
  (length (filter P l) ≤ 1)%nat → x ∈ l → P x → y ∈ l → P y → x = y.
Proof.
  intros Hlen Hx HPx Hy HPy.
  assert (x ∈ filter P l) as Hx' by (by apply list_elem_of_filter).
  assert (y ∈ filter P l) as Hy' by (by apply list_elem_of_filter).
  destruct (filter P l) as [|z [|z' l']]; simpl in Hlen.
  - by apply not_elem_of_nil in Hx'.
  - apply list_elem_of_singleton in Hx'. apply list_elem_of_singleton in Hy'. congruence.
  - lia.
Qed.

Section PlacementsOfInitializer.
Context {Json : Type} (JSON_stringify : option Json → option string).

Local Abbreviation init := (initialOverlayStateFromInternalConfig JSON_stringify).

(** The entries the three reducers write for a record. *)
Lemma initial_entries_of_last_record (internalConfig : InternalLtiConfiguration.t Json)
    (before after : list InternalPlacement.t) (r : InternalPlacement.t) :
  InternalLtiConfiguration.placements internalConfig = before ++ r :: after →
  (∀ q, q ∈ after → InternalPlacement.placement q ≠ InternalPlacement.placement r) →
  OverrideUris.placements (State.override_uris (init internalConfig))
    !! InternalPlacement.placement r
  = Some (OverrideUri.mk
            (Some (default "LtiResourceLinkRequest" (InternalPlacement.message_type r)))
            (Some (default (InternalLtiConfiguration.target_link_uri internalConfig)
                     (InternalPlacement.url r))))
  ∧ Naming.placements (State.naming (init internalConfig)) !! InternalPlacement.placement r
    = Some (PlacementName.mk
              (Some (default (InternalLtiConfiguration.title internalConfig)
                       (InternalPlacement.text r))))
  ∧ Icons.placements (State.icons (init internalConfig)) !! InternalPlacement.placement r
    = Some (PlacementIcon.mk (InternalPlacement.icon_url r)).
Proof.
  intros Hps Hafter. simpl. rewrite Hps. split_and!.
  - by apply (fold_assign_last InternalPlacement.placement
                (λ p, OverrideUri.mk
                        (Some (default "LtiResourceLinkRequest" (InternalPlacement.message_type p)))
                        (Some (default (InternalLtiConfiguration.target_link_uri internalConfig)
                                 (InternalPlacement.url p))))).
  - by apply (fold_assign_last InternalPlacement.placement
                (λ p, PlacementName.mk
                        (Some (default (InternalLtiConfiguration.title internalConfig)
                                 (InternalPlacement.text p))))).
  - by apply (fold_assign_last InternalPlacement.placement
                (λ p, PlacementIcon.mk (InternalPlacement.icon_url p))).
Qed.

(** C8, as the code has it: [placements.courseNavigationDefaultDisabled] is
    always set, and it is true exactly when the first record for
    ["course_navigation"] in the list has [default] equal to ['disabled'].
    When the document has at most one record for ["course_navigation"], that
    is: exactly when there is such a record with the flag set. *)
Theorem initial_courseNavigationDefaultDisabled
    (internalConfig : InternalLtiConfiguration.t Json) :
  let records := InternalLtiConfiguration.placements internalConfig in
  let flag :=
    Placements.courseNavigationDefaultDisabled (State.placements (init internalConfig)) in
  (flag = Some true ∨ flag = Some false)
  ∧ (flag = Some true ↔
     ∃ before r after,
       records = before ++ r :: after
       ∧ (∀ q, q ∈ before → InternalPlacement.placement q ≠ "course_navigation")
       ∧ InternalPlacement.placement r = "course_navigation"
       ∧ InternalPlacement.default r = Some "disabled")
  ∧ ((length (filter (λ p, InternalPlacement.placement p = "course_navigation") records)
       ≤ 1)%nat →
     (flag = Some true ↔
      ∃ r, r ∈ records
           ∧ InternalPlacement.placement r = "course_navigation"
           ∧ InternalPlacement.default r = Some "disabled")).
Proof.
  intros records flag.
  assert (flag = Some true ↔
     ∃ before r after,
       records = before ++ r :: after
       ∧ (∀ q, q ∈ before → InternalPlacement.placement q ≠ "course_navigation")
       ∧ InternalPlacement.placement r = "course_navigation"
       ∧ InternalPlacement.default r = Some "disabled") as Hfirst.
  { subst flag. simpl. fold records. split.
    - intros [= Hflag]. apply bool_decide_eq_true in Hflag.
      destruct (find_course_navigation records) as [r|] eqn:Hfind; [|done].
      apply find_course_navigation_Some in Hfind as (before & after & Heq & Hbefore & Hr).
      by exists before, r, after.
    - intros (before & r & after & Heq & Hbefore & Hr & Hdefault).
      rewrite Heq, find_course_navigation_first by done. simpl.
      f_equal. by apply bool_decide_eq_true. }
  split_and!; [|done|].
  - subst flag. simpl. destruct (bool_decide _); auto.
  - intros Hone. rewrite Hfirst. split.
    + intros (before & r & after & Heq & _ & Hr & Hdefault).
      exists r. split_and!; [|done..]. rewrite Heq. apply elem_of_app. right. left.
    + intros (r & Hin & Hr & Hdefault).
      destruct (find_course_navigation records) as [r'|] eqn:Hfind.
      * apply find_course_navigation_Some in Hfind as (before & after & Heq & Hbefore & Hr').
        assert (r' = r) as ->.
        { apply (at_most_one_unique
                   (λ p, InternalPlacement.placement p = "course_navigation") records);
            [done| |done..]. rewrite Heq. apply elem_of_app. right. left. }
        by exists before, r, after.
      * exfalso. by apply (proj1 (find_course_navigation_None records) Hfind r).
Qed.

(** C9, as the code has it: for every placement record that is the last of
    its kind in the list, the [override_uris] entry of that kind has the
    record's message type, or ['LtiResourceLinkRequest'] when it has none,
    and the record's URL, or the document's target link URI when it has
    none.  When the kinds of the records are pairwise distinct this holds
    for every record. *)
Theorem initial_override_uris (internalConfig : InternalLtiConfiguration.t Json) :
  let records := InternalLtiConfiguration.placements internalConfig in
  let entry_of (r : InternalPlacement.t) :=
    OverrideUri.mk
      (Some (default "LtiResourceLinkRequest" (InternalPlacement.message_type r)))
      (Some (default (InternalLtiConfiguration.target_link_uri internalConfig)
               (InternalPlacement.url r))) in
  let override_uris := OverrideUris.placements (State.override_uris (init internalConfig)) in
  (∀ before r after,
     records = before ++ r :: after →
     (∀ q, q ∈ after → InternalPlacement.placement q ≠ InternalPlacement.placement r) →
     override_uris !! InternalPlacement.placement r = Some (entry_of r))
  ∧ (NoDup (InternalPlacement.placement <$> records) →
     ∀ r, r ∈ records →
       override_uris !! InternalPlacement.placement r = Some (entry_of r)).
Proof.
  intros records entry_of override_uris.
  assert (∀ before r after,
     records = before ++ r :: after →
     (∀ q, q ∈ after → InternalPlacement.placement q ≠ InternalPlacement.placement r) →
     override_uris !! InternalPlacement.placement r = Some (entry_of r)) as Hlast.
  { intros before r after Heq Hafter.
    by destruct (initial_entries_of_last_record internalConfig before after r Heq Hafter). }
  split; [done|].
  intros Hdistinct r Hin.
  apply list_elem_of_split in Hin as (before & after & Heq).
  apply (Hlast before r after Heq).
  intros q Hq Hsame. rewrite Heq in Hdistinct.
  rewrite fmap_app, fmap_cons in Hdistinct.
  apply NoDup_app in Hdistinct as (_ & _ & Hdistinct).
  apply NoDup_cons in Hdistinct as [Hnotin _].
  apply Hnotin. rewrite <- Hsame. by apply list_elem_of_fmap_2.
Qed.

(** C10: when several placement records have the same kind, the entries of
    [override_uris], [naming.placements] and [icons.placements] for that
    kind are those of the record that comes last in the list. *)
Theorem initial_entries_later_record_wins (internalConfig : InternalLtiConfiguration.t Json)
    (kind : LtiPlacement) (before after : list InternalPlacement.t)
    (r : InternalPlacement.t) :
  InternalLtiConfiguration.placements internalConfig = before ++ r :: after →
  InternalPlacement.placement r = kind →
  (∃ q, q ∈ before ∧ InternalPlacement.placement q = kind) →
  (∀ q, q ∈ after → InternalPlacement.placement q ≠ kind) →
  OverrideUris.placements (State.override_uris (init internalConfig)) !! kind
  = Some (OverrideUri.mk
            (Some (default "LtiResourceLinkRequest" (InternalPlacement.message_type r)))
            (Some (default (InternalLtiConfiguration.target_link_uri internalConfig)
                     (InternalPlacement.url r))))
  ∧ Naming.placements (State.naming (init internalConfig)) !! kind
    = Some (PlacementName.mk
              (Some (default (InternalLtiConfiguration.title internalConfig)
                       (InternalPlacement.text r))))
  ∧ Icons.placements (State.icons (init internalConfig)) !! kind
    = Some (PlacementIcon.mk (InternalPlacement.icon_url r)).
Proof.
  intros Heq <- _ Hafter.
  by apply (initial_entries_of_last_record internalConfig before after r).
Qed.

End PlacementsOfInitializer.

(** A document whose second record for course navigation sets the flag:
    the first one decides, and the field is false. *)
Lemma initial_courseNavigationDefaultDisabled_second_record_ignored :
  course_navigation_disabled
    ∈ InternalLtiConfiguration.placements
        (sample_config None None None [course_navigation_plain; course_navigation_disabled])
  ∧ InternalPlacement.placement course_navigation_disabled = "course_navigation"
  ∧ InternalPlacement.default course_navigation_disabled = Some "disabled"
  ∧ Placements.courseNavigationDefaultDisabled
      (State.placements
         (initialOverlayStateFromInternalConfig no_key_stringify
            (sample_config None None None
               [course_navigation_plain; course_navigation_disabled])))
    = Some false.
Proof.
  split_and!; try reflexivity. simpl. right. left.
Qed.

Lemma initial_courseNavigationDefaultDisabled_witness :
  Placements.courseNavigationDefaultDisabled
    (State.placements
       (initialOverlayStateFromInternalConfig no_key_stringify
          (sample_config None None None
             [account_navigation_full; course_navigation_disabled])))
  = Some true.
Proof.
  destruct (initial_courseNavigationDefaultDisabled no_key_stringify
              (sample_config None None None
                 [account_navigation_full; course_navigation_disabled]))
    as (_ & _ & Hone).
  apply Hone.
  - vm_compute. lia.
  - exists course_navigation_disabled. split_and!; try reflexivity.
    simpl. right. left.
Defined.

(** A document with two records for course navigation: the entry of
    [override_uris] does not have the message type and URL of the first. *)
Lemma initial_override_uris_earlier_record_overwritten :
  course_navigation_deep_link
    ∈ InternalLtiConfiguration.placements
        (sample_config None None None
           [course_navigation_deep_link; account_navigation_full; course_navigation_plain])
  ∧ InternalPlacement.message_type course_navigation_deep_link
    = Some "LtiDeepLinkingRequest"
  ∧ InternalPlacement.url course_navigation_deep_link = Some "https://x.com/first"
  ∧ OverrideUris.placements
      (State.override_uris
         (initialOverlayStateFromInternalConfig no_key_stringify
            (sample_config None None None
               [course_navigation_deep_link; account_navigation_full;
                course_navigation_plain])))
      !! InternalPlacement.placement course_navigation_deep_link
    = Some (OverrideUri.mk (Some "LtiResourceLinkRequest") (Some "https://x.com/launch")).
Proof.
  split_and!; try reflexivity. simpl. left.
Qed.

Lemma initial_override_uris_witness :
  OverrideUris.placements
    (State.override_uris
       (initialOverlayStateFromInternalConfig no_key_stringify
          (sample_config None None None
             [course_navigation_deep_link; account_navigation_full])))
    !! "course_navigation"
  = Some (OverrideUri.mk (Some "LtiDeepLinkingRequest") (Some "https://x.com/first"))
  ∧ OverrideUris.placements
      (State.override_uris
         (initialOverlayStateFromInternalConfig no_key_stringify
            (sample_config None None None
               [course_navigation_deep_link; account_navigation_full])))
      !! "account_navigation"
    = Some (OverrideUri.mk (Some "LtiResourceLinkRequest") (Some "https://x.com/account")).
Proof.
  destruct (initial_override_uris no_key_stringify
              (sample_config None None None
                 [course_navigation_deep_link; account_navigation_full]))
    as [Hlast Hdistinct].
  split.
  - apply (Hlast [] course_navigation_deep_link [account_navigation_full] eq_refl).
    intros q Hq. apply list_elem_of_singleton in Hq as ->. discriminate.
  - apply (Hdistinct) with (r := account_navigation_full).
    + simpl. apply NoDup_ListNoDup. repeat constructor; simpl; intuition discriminate.
    + simpl. right. left.
Defined.

Lemma initial_entries_later_record_wins_witness :
  OverrideUris.placements
    (State.override_uris
       (initialOverlayStateFromInternalConfig no_key_stringify
          (sample_config None None None
             [course_navigation_deep_link; account_navigation_full;
              course_navigation_plain])))
    !! "course_navigation"
  = Some (OverrideUri.mk (Some "LtiResourceLinkRequest") (Some "https://x.com/launch"))
  ∧ Naming.placements
      (State.naming
         (initialOverlayStateFromInternalConfig no_key_stringify
            (sample_config None None None
               [course_navigation_deep_link; account_navigation_full;
                course_navigation_plain])))
      !! "course_navigation"
    = Some (PlacementName.mk (Some "Tool"))
  ∧ Icons.placements
      (State.icons
         (initialOverlayStateFromInternalConfig no_key_stringify
            (sample_config None None None
               [course_navigation_deep_link; account_navigation_full;
                course_navigation_plain])))
      !! "course_navigation"
    = Some (PlacementIcon.mk None).
Proof.
  apply (initial_entries_later_record_wins no_key_stringify
           (sample_config None None None
              [course_navigation_deep_link; account_navigation_full;
               course_navigation_plain])
           "course_navigation"
           [course_navigation_deep_link; account_navigation_full] []
           course_navigation_plain).
  - reflexivity.
  - reflexivity.
  - exists course_navigation_deep_link. split; [left|reflexivity].
  - intros q Hq. by apply not_elem_of_nil in Hq.
Defined.

(** ** Sharing of the sections between snapshots *)

(** A snapshot reads as [st] exactly when its object holds, for every
    section, a reference to an object with the contents [st] has there. *)
Lemma snapshot_Some (h : Refs.heap) (state : Refs.loc) (st : State.t) :
  Refs.snapshot h state = Some st ↔
  ∃ o, h !! state = Some (Refs.O_State o)
       ∧ h !! Refs.launchSettings o = Some (Refs.O_LaunchSettings (State.launchSettings st))
       ∧ h !! Refs.permissions o = Some (Refs.O_Permissions (State.permissions st))
       ∧ h !! Refs.data_sharing o = Some (Refs.O_DataSharing (State.data_sharing st))
       ∧ h !! Refs.placements o = Some (Refs.O_Placements (State.placements st))
       ∧ h !! Refs.override_uris o = Some (Refs.O_OverrideUris (State.override_uris st))
       ∧ h !! Refs.naming o = Some (Refs.O_Naming (State.naming st))
       ∧ h !! Refs.icons o = Some (Refs.O_Icons (State.icons st)).
Proof.
  unfold Refs.snapshot, Refs.get_State, Refs.get_LaunchSettings, Refs.get_Permissions,
    Refs.get_DataSharing, Refs.get_Placements, Refs.get_OverrideUris, Refs.get_Naming,
    Refs.get_Icons.
  split.
  - intros H.
    destruct (h !! state) as [[o| | | | | | |]|] eqn:E0; try discriminate H. simpl in H.
    destruct (h !! Refs.launchSettings o) as [[|ls| | | | | |]|] eqn:E1; try discriminate H.
    destruct (h !! Refs.permissions o) as [[| |p| | | | |]|] eqn:E2; try discriminate H.
    destruct (h !! Refs.data_sharing o) as [[| | |d| | | |]|] eqn:E3; try discriminate H.
    destruct (h !! Refs.placements o) as [[| | | |pl| | |]|] eqn:E4; try discriminate H.
    destruct (h !! Refs.override_uris o) as [[| | | | |ou| |]|] eqn:E5; try discriminate H.
    destruct (h !! Refs.naming o) as [[| | | | | |n|]|] eqn:E6; try discriminate H.
    destruct (h !! Refs.icons o) as [[| | | | | | |i]|] eqn:E7; try discriminate H.
    simpl in H. injection H as <-. exists o. by split_and!.
  - intros (o & H0 & H1 & H2 & H3 & H4 & H5 & H6 & H7).
    rewrite H0. simpl. rewrite H1. simpl. rewrite H2. simpl. rewrite H3. simpl.
    rewrite H4. simpl. rewrite H5. simpl. rewrite H6. simpl. rewrite H7. simpl.
    by destruct st.
Qed.

(** Two successive object literals: both get locations the store did not
    use, and no object of the store is touched. *)
Lemma alloc_two (h : Refs.heap) (section' : Refs.Obj) (state' : Refs.loc → Refs.Obj) :
  let l1 := fresh (dom h) in
  let h1 := <[l1 := section']> h in
  let l2 := fresh (dom h1) in
  let h2 := <[l2 := state' l1]> h1 in
  h ⊆ h2 ∧ (l1 ∉ dom h) ∧ (l2 ∉ dom h)
  ∧ h2 !! l1 = Some section' ∧ h2 !! l2 = Some (state' l1).
Proof.
  intros l1 h1 l2 h2.
  assert (l1 ∉ dom h) as Hl1 by apply is_fresh.
  assert (l2 ∉ dom h1) as Hl2 by apply is_fresh.
  assert (h !! l1 = None) as Hn1 by (by apply not_elem_of_dom).
  assert (h1 !! l2 = None) as Hn2 by (by apply not_elem_of_dom).
  assert (l1 ≠ l2) as Hne.
  { intros Heq. subst h1. rewrite <- Heq, lookup_insert_eq in Hn2. discriminate. }
  assert (h ⊆ h1) as Hsub1 by (by apply insert_subseteq).
  assert (h1 ⊆ h2) as Hsub2 by (by apply insert_subseteq).
  split_and!.
  - by transitivity h1.
  - done.
  - subst h1. rewrite dom_insert_L in Hl2. set_solver.
  - subst h2 h1. rewrite lookup_insert_ne by done. apply lookup_insert_eq.
  - subst h2. apply lookup_insert_eq.
Qed.

(** C2: every action allocates a new snapshot object and one new section
    object, the section it targets.  Every other property of the new snapshot
    holds the very reference the old snapshot holds, no object of the store
    is changed (the old snapshot still reads as before), and the new snapshot
    reads as the old one with the targeted section updated. *)
Theorem dispatch_shares_other_sections (a : Action) (h : Refs.heap) (state : Refs.loc)
    (st : State.t) :
  Refs.snapshot h state = Some st →
  ∃ o state' h' o',
    h !! state = Some (Refs.O_State o)
    ∧ Refs.dispatch a state h = Some (state', h')
    ∧ h' !! state' = Some (Refs.O_State o')
    ∧ (∀ sec, sec ≠ Refs.target a → Refs.ref_of sec o' = Refs.ref_of sec o)
    ∧ (Refs.ref_of (Refs.target a) o' ∉ dom h)
    ∧ (state' ∉ dom h)
    ∧ h ⊆ h'
    ∧ Refs.snapshot h' state = Some st
    ∧ Refs.snapshot h' state' = Some (dispatch a st).
Proof.
  intros Hsnap.
  pose proof Hsnap as Hold.
  apply snapshot_Some in Hold as (o & H0 & H1 & H2 & H3 & H4 & H5 & H6 & H7).
  exists o.
  assert (∀ h', h ⊆ h' → Refs.snapshot h' state = Some st) as Hkeep.
  { intros h' Hsub. apply snapshot_Some. exists o.
    split_and!; by eapply lookup_weaken. }
  destruct a; simpl Refs.dispatch; simpl Refs.target;
    unfold Refs.updateLaunchSetting, Refs.toggleScope, Refs.setPrivacyLevel,
      Refs.togglePlacement, Refs.toggleCourseNavigationDefaultDisabled,
      Refs.bind, Refs.read, Refs.alloc, Refs.get_State, Refs.get_LaunchSettings,
      Refs.get_Permissions, Refs.get_DataSharing, Refs.get_Placements;
    rewrite H0; cbn beta iota; rewrite ?H1, ?H2, ?H3, ?H4; cbn beta iota zeta;
    match goal with
    | |- context [<[_ := Refs.O_State ?new]> (<[_ := ?sec]> h)] =>
        let p := eval pattern (fresh (dom h)) in (Refs.O_State new) in
        match p with
        | ?F _ =>
            pose proof (alloc_two h sec F) as Ha; cbv zeta beta in Ha;
            destruct Ha as (Hsub & Hl1 & Hl2 & Hsec & Hstate)
        end
    end;
    (eexists _, _, _; split_and!;
     [ done | reflexivity | exact Hstate
     | intros []; simpl; congruence
     | exact Hl1 | exact Hl2 | exact Hsub | by apply Hkeep
     | apply snapshot_Some; eexists; split_and!;
       [ exact Hstate | first [ exact Hsec | by eapply lookup_weaken ].. ] ]).
Qed.

(** Setting the privacy level of [sample_state]: the new snapshot object
    holds the old references but for [data_sharing]. *)
Example setPrivacyLevel_sample :
  Refs.snapshot sample_heap 8%positive = Some sample_state
  ∧ ∃ h',
      Refs.setPrivacyLevel "public" 8%positive sample_heap = Some (10%positive, h')
      ∧ h' !! 10%positive = Some (Refs.O_State (Refs.mk 1%positive 2%positive 9%positive 4%positive
                                 5%positive 6%positive 7%positive))
      ∧ h' !! 9%positive = Some (Refs.O_DataSharing (DataSharing.mk (Some "public")))
      ∧ h' !! 3%positive = Some (Refs.O_DataSharing (DataSharing.mk (Some "anonymous")))
      ∧ Refs.snapshot h' 10%positive = Some (setPrivacyLevel "public" sample_state).
Proof.
  split; [reflexivity|]. eexists. split; [vm_compute; reflexivity|].
  split_and!; vm_compute; reflexivity.
Qed.

Lemma dispatch_shares_other_sections_witness :
  ∃ o state' h' o',
    sample_heap !! 8%positive = Some (Refs.O_State o)
    ∧ Refs.dispatch (SetPrivacyLevel "public") 8%positive sample_heap = Some (state', h')
    ∧ h' !! state' = Some (Refs.O_State o')
    ∧ (∀ sec, sec ≠ Refs.S_data_sharing → Refs.ref_of sec o' = Refs.ref_of sec o)
    ∧ (Refs.ref_of Refs.S_data_sharing o' ∉ dom sample_heap)
    ∧ (state' ∉ dom sample_heap)
    ∧ sample_heap ⊆ h'
    ∧ Refs.snapshot h' 8%positive = Some sample_state
    ∧ Refs.snapshot h' state' = Some (setPrivacyLevel "public" sample_state).
Proof.
  apply (dispatch_shares_other_sections (SetPrivacyLevel "public") sample_heap 8%positive sample_state).
  reflexivity.
Defined.

(** ** Setters of the launch settings *)

(** [updateLaunchSetting(key, value)] stores [value] under [key] and leaves
    the seven other properties of [launchSettings], and every other section,
    as they were. *)
Theorem updateLaunchSetting_sets_one_key (key : LaunchKey) (value : LaunchValue key)
    (state : State.t) :
  let state' := updateLaunchSetting key value state in
  launchSettings_get key (State.launchSettings state') = value
  ∧ (∀ key', key' ≠ key →
       launchSettings_get key' (State.launchSettings state')
       = launchSettings_get key' (State.launchSettings state))
  ∧ State.permissions state' = State.permissions state
  ∧ State.data_sharing state' = State.data_sharing state
  ∧ State.placements state' = State.placements state
  ∧ State.override_uris state' = State.override_uris state
  ∧ State.naming state' = State.naming state
  ∧ State.icons state' = State.icons state.
Proof.
  simpl. split_and!; try reflexivity.
  - by destruct key.
  - intros key' Hne. destruct key, key'; try reflexivity; contradiction.
Qed.

(** Two launch-setting updates: on the same key the later one wins, on
    different keys their order does not matter. *)
Theorem updateLaunchSetting_compose (key1 key2 : LaunchKey)
    (value1 : LaunchValue key1) (value2 : LaunchValue key2)
    (value1' : LaunchValue key1) (state : State.t) :
  updateLaunchSetting key1 value1' (updateLaunchSetting key1 value1 state)
  = updateLaunchSetting key1 value1' state
  ∧ (key1 ≠ key2 →
     updateLaunchSetting key1 value1 (updateLaunchSetting key2 value2 state)
     = updateLaunchSetting key2 value2 (updateLaunchSetting key1 value1 state)).
Proof.
  split.
  - by destruct key1.
  - intros Hne. destruct key1, key2; try reflexivity; contradiction.
Qed.

Lemma updateLaunchSetting_compose_witness :
  setDomain "y.com" (setJwkURL "https://y.com/jwks" sample_state)
  = setJwkURL "https://y.com/jwks" (setDomain "y.com" sample_state).
Proof.
  destruct (updateLaunchSetting_compose K_domain K_JwkURL (Some "y.com")
              (Some "https://y.com/jwks") None sample_state) as [_ Hcommute].
  apply Hcommute. discriminate.
Defined.

(** ** How the actions compose *)

(** Two actions that rebuild different sections commute; so do the two
    actions on the section [placements], which change different properties
    of it. *)
Theorem dispatch_commutes_across_sections (a b : Action) (state : State.t) :
  (Refs.target a ≠ Refs.target b →
   dispatch a (dispatch b state) = dispatch b (dispatch a state))
  ∧ (∀ placement,
       togglePlacement placement (toggleCourseNavigationDefaultDisabled state)
       = toggleCourseNavigationDefaultDisabled (togglePlacement placement state)).
Proof.
  split; [|reflexivity].
  intros Hne. destruct a, b; try reflexivity; simpl in Hne; contradiction.
Qed.

Lemma dispatch_commutes_across_sections_witness :
  toggleScope "scope/result" (togglePlacement "course_navigation" sample_state)
  = togglePlacement "course_navigation" (toggleScope "scope/result" sample_state).
Proof.
  destruct (dispatch_commutes_across_sections (ToggleScope "scope/result")
              (TogglePlacement "course_navigation") sample_state) as [Hcommute _].
  apply Hcommute. discriminate.
Defined.

Lemma toggled_thrice (x : string) (xs : option (list string)) :
  toggled x (Some (toggled x (Some (toggled x xs)))) = toggled x xs.
Proof.
  assert (∀ l, toggled x (Some (toggled x (Some (toggled x (Some l)))))
               = toggled x (Some l)) as Hpresent.
  { intros l. destruct (decide (x ∈ l)) as [Hin|Hin].
    - rewrite (toggled_present x l Hin).
      apply toggled_twice_absent. rewrite elem_of_filter_ne. tauto.
    - rewrite (toggled_absent x l Hin).
      rewrite (toggled_present x (l ++ [x]))
        by (apply elem_of_app; right; by apply list_elem_of_singleton).
      rewrite filter_ne_snoc, filter_ne_absent by done.
      by apply toggled_absent. }
  destruct xs as [l|]; [apply Hpresent|].
  assert (toggled x None = toggled x (Some [])) as ->; [|apply Hpresent].
  symmetry. apply toggled_absent, not_elem_of_nil.
Qed.

(** Calling a setter twice with the same argument is calling it once; a
    toggle called a third time undoes the second call, so that three calls
    are one call. *)
Theorem dispatch_repeated (a : Action) (state : State.t) :
  (is_toggle a = false → dispatch a (dispatch a state) = dispatch a state)
  ∧ (is_toggle a = true →
     dispatch a (dispatch a (dispatch a state)) = dispatch a state).
Proof.
  destruct state as [ls [scopes] ds [placements flag] ou n i].
  split; intros Ha; destruct a; try discriminate Ha; try reflexivity.
  - unfold dispatch, toggleScope, permissions_toggleScope. projections.
    by rewrite toggled_thrice.
  - unfold dispatch, togglePlacement, placements_togglePlacement. projections.
    by rewrite toggled_thrice.
  - unfold dispatch, toggleCourseNavigationDefaultDisabled,
      placements_toggleCourseNavigationDefaultDisabled. projections.
    simpl truthy_bool. by rewrite negb_involutive.
Qed.

Lemma dispatch_repeated_witness :
  dispatch (SetPrivacyLevel "public") (dispatch (SetPrivacyLevel "public") bare_state)
  = dispatch (SetPrivacyLevel "public") bare_state
  ∧ toggleScope "scope/score" (toggleScope "scope/score" (toggleScope "scope/score" bare_state))
    = toggleScope "scope/score" bare_state.
Proof.
  split.
  - destruct (dispatch_repeated (SetPrivacyLevel "public") bare_state) as [Hset _].
    apply Hset. reflexivity.
  - destruct (dispatch_repeated (ToggleScope "scope/score") bare_state) as [_ Htoggle].
    apply Htoggle. reflexivity.
Defined.

(** ** Toggling two entries *)

Lemma filter_ne_comm (x y : string) (l : list string) :
  filter_ne x (filter_ne y l) = filter_ne y (filter_ne x l).
Proof.
  unfold filter_ne. rewrite !list_filter_filter.
  apply list_filter_iff. intros z. tauto.
Qed.

Lemma filter_ne_snoc_ne (x y : string) (l : list string) :
  y ≠ x → filter_ne x (l ++ [y]) = filter_ne x l ++ [y].
Proof.
  intros Hne. unfold filter_ne. rewrite filter_app. f_equal.
  by rewrite filter_cons_True, filter_nil.
Qed.

(** Toggling two different entries of a present list commutes as soon as one
    of them is listed. *)
Lemma toggled_comm (x y : string) (l : list string) :
  x ≠ y → x ∈ l ∨ y ∈ l →
  toggled x (Some (toggled y (Some l))) = toggled y (Some (toggled x (Some l))).
Proof.
  intros Hne Hlisted.
  destruct (decide (x ∈ l)) as [Hx|Hx]; destruct (decide (y ∈ l)) as [Hy|Hy].
  - rewrite (toggled_present y l Hy), (toggled_present x l Hx).
    rewrite toggled_present by (rewrite elem_of_filter_ne; tauto).
    rewrite toggled_present by (rewrite elem_of_filter_ne; split; [congruence|done]).
    apply filter_ne_comm.
  - rewrite (toggled_absent y l Hy), (toggled_present x l Hx).
    rewrite toggled_present by (apply elem_of_app; by left).
    rewrite toggled_absent by (rewrite elem_of_filter_ne; tauto).
    apply filter_ne_snoc_ne. congruence.
  - rewrite (toggled_present y l Hy), (toggled_absent x l Hx).
    rewrite toggled_absent by (rewrite elem_of_filter_ne; tauto).
    rewrite toggled_present by (apply elem_of_app; by left).
    symmetry. by apply filter_ne_snoc_ne.
  - tauto.
Qed.

(** Adding two entries that are both not listed: the one toggled last comes
    last. *)
Lemma toggled_both_absent (x y : string) (xs : option (list string)) :
  x ≠ y → x ∉ entries xs → y ∉ entries xs →
  toggled x (Some (toggled y xs)) = entries xs ++ [y; x].
Proof.
  intros Hne Hx Hy.
  assert (toggled y xs = entries xs ++ [y]) as ->.
  { destruct xs as [l|]; [by apply toggled_absent|reflexivity]. }
  rewrite toggled_absent.
  - by rewrite <- app_assoc.
  - rewrite elem_of_app, list_elem_of_singleton. tauto.
Qed.

(** Toggling two different scopes, or two different placements: the two
    orders give the same snapshot when at least one of the two entries is
    listed; when neither is, both are appended and the two orders give lists
    that differ in the order of the two new entries. *)
Theorem toggle_two_entries (x y : string) (state : State.t) :
  x ≠ y →
  let scopes := Permissions.scopes (State.permissions state) in
  let placements := Placements.placements (State.placements state) in
  (x ∈ entries scopes ∨ y ∈ entries scopes →
   toggleScope x (toggleScope y state) = toggleScope y (toggleScope x state))
  ∧ (x ∉ entries scopes → y ∉ entries scopes →
     Permissions.scopes (State.permissions (toggleScope x (toggleScope y state)))
     = Some (entries scopes ++ [y; x])
     ∧ Permissions.scopes (State.permissions (toggleScope y (toggleScope x state)))
       = Some (entries scopes ++ [x; y]))
  ∧ (x ∈ entries placements ∨ y ∈ entries placements →
     togglePlacement x (togglePlacement y state) = togglePlacement y (togglePlacement x state))
  ∧ (x ∉ entries placements → y ∉ entries placements →
     Placements.placements (State.placements (togglePlacement x (togglePlacement y state)))
     = Some (entries placements ++ [y; x])
     ∧ Placements.placements (State.placements (togglePlacement y (togglePlacement x state)))
       = Some (entries placements ++ [x; y])).
Proof.
  intros Hne. destruct state as [ls [scopes] ds [placements flag] ou n i].
  projections. split_and!.
  - intros Hlisted. unfold toggleScope, permissions_toggleScope. projections.
    destruct scopes as [l|]; simpl entries in Hlisted.
    + by rewrite toggled_comm.
    + destruct Hlisted as [H|H]; by apply not_elem_of_nil in H.
  - intros Hx Hy. unfold toggleScope, permissions_toggleScope. projections.
    by rewrite !toggled_both_absent.
  - intros Hlisted. unfold togglePlacement, placements_togglePlacement. projections.
    destruct placements as [l|]; simpl entries in Hlisted.
    + by rewrite toggled_comm.
    + destruct Hlisted as [H|H]; by apply not_elem_of_nil in H.
  - intros Hx Hy. unfold togglePlacement, placements_togglePlacement. projections.
    by rewrite !toggled_both_absent.
Qed.

Lemma toggle_two_entries_witness :
  toggleScope "scope/score" (toggleScope "scope/result" sample_state)
  = toggleScope "scope/result" (toggleScope "scope/score" sample_state)
  ∧ Placements.placements
      (State.placements
         (togglePlacement "course_navigation"
            (togglePlacement "account_navigation" bare_state)))
    = Some ["account_navigation"; "course_navigation"]
  ∧ Placements.placements
      (State.placements
         (togglePlacement "account_navigation"
            (togglePlacement "course_navigation" bare_state)))
    = Some ["course_navigation"; "account_navigation"].
Proof.
  split.
  - assert ("scope/score" ≠ "scope/result") as Hne by discriminate.
    destruct (toggle_two_entries "scope/score" "scope/result" sample_state Hne)
      as (Hlisted & _).
    apply Hlisted. left. simpl. right. left.
  - assert ("course_navigation" ≠ "account_navigation") as Hne by discriminate.
    destruct (toggle_two_entries "course_navigation" "account_navigation" bare_state Hne)
      as (_ & _ & _ & Hnew).
    apply Hnew; simpl; apply not_elem_of_nil.
Defined.

(** ** What a toggle does to the list *)

Lemma toggled_flips (x : string) (xs : option (list string)) :
  (x ∈ toggled x xs ↔ x ∉ entries xs)
  ∧ (∀ y, y ≠ x → y ∈ toggled x xs ↔ y ∈ entries xs)
  ∧ (x ∈ entries xs → toggled x xs `sublist_of` entries xs)
  ∧ (x ∉ entries xs → toggled x xs = entries xs ++ [x]).
Proof.
  split_and!.
  - rewrite toggled_elem_of. tauto.
  - intros y Hne. rewrite toggled_elem_of. tauto.
  - destruct xs as [l|]; simpl entries; intros Hin.
    + rewrite toggled_present by done. apply sublist_filter.
    + by apply not_elem_of_nil in Hin.
  - destruct xs as [l|]; simpl entries; intros Hin.
    + by apply toggled_absent.
    + reflexivity.
Qed.

(** [togglePlacement] always leaves a list in [placements.placements], an
    absent list counting as empty.  The placement is listed afterwards
    exactly when it was not listed before, and every other placement is
    listed exactly when it was.  When the placement is removed the remaining
    entries keep their relative order; when it is added it comes last.  The
    flag [courseNavigationDefaultDisabled] and every other section are left
    as they were: removing ["course_navigation"] does not reset the flag.
    [toggleScope] does the same to [permissions.scopes]. *)
Theorem toggle_flips_membership (x : string) (state : State.t) :
  let placements := entries (Placements.placements (State.placements state)) in
  let scopes := entries (Permissions.scopes (State.permissions state)) in
  (∃ placements',
     Placements.placements (State.placements (togglePlacement x state)) = Some placements'
     ∧ (x ∈ placements' ↔ x ∉ placements)
     ∧ (∀ y, y ≠ x → y ∈ placements' ↔ y ∈ placements)
     ∧ (x ∈ placements → placements' `sublist_of` placements)
     ∧ (x ∉ placements → placements' = placements ++ [x]))
  ∧ Placements.courseNavigationDefaultDisabled (State.placements (togglePlacement x state))
    = Placements.courseNavigationDefaultDisabled (State.placements state)
  ∧ State.permissions (togglePlacement x state) = State.permissions state
  ∧ (∃ scopes',
       Permissions.scopes (State.permissions (toggleScope x state)) = Some scopes'
       ∧ (x ∈ scopes' ↔ x ∉ scopes)
       ∧ (∀ y, y ≠ x → y ∈ scopes' ↔ y ∈ scopes)
       ∧ (x ∈ scopes → scopes' `sublist_of` scopes)
       ∧ (x ∉ scopes → scopes' = scopes ++ [x]))
  ∧ State.placements (toggleScope x state) = State.placements state.
Proof.
  simpl. split_and!; try reflexivity.
  - eexists. split; [reflexivity|]. apply toggled_flips.
  - eexists. split; [reflexivity|]. apply toggled_flips.
Qed.

Lemma toggle_flips_membership_witness :
  Placements.placements (State.placements (togglePlacement "editor_button" sample_state))
  = Some ["course_navigation"; "account_navigation"; "editor_button"].
Proof.
  destruct (toggle_flips_membership "editor_button" sample_state)
    as ((l' & Heq & _ & _ & _ & Hadd) & _).
  rewrite Heq, Hadd; [reflexivity|].
  simpl. intros Hin. apply list_elem_of_In in Hin. simpl in Hin.
  destruct Hin as [H|[H|[]]]; discriminate H.
Defined.

(** ** Snapshots a store can hold *)

(** A property of snapshots that every action preserves holds of the store
    after any sequence of calls. *)
Lemma run_invariant (P : State.t → Prop) :
  (∀ a state, P state → P (dispatch a state)) →
  ∀ actions store, P (Store.state store) → P (Store.state (run actions store)).
Proof.
  intros Hstep actions. induction actions as [|a actions IH]; intros store HP; [done|].
  simpl. apply IH. simpl. by apply Hstep.
Qed.

Lemma dispatch_duplicate_free (a : Action) (state : State.t) :
  duplicate_free state → duplicate_free (dispatch a state).
Proof.
  intros [Hscopes Hplacements].
  destruct a; split; simpl; try assumption; by apply toggled_NoDup.
Qed.

(** The keys a reducer that assigns [acc[key p] = val p] leaves in the
    object: those of the accumulator and those of the records. *)
Section AssignedKeys.
Context {A V : Type} (key : A → string) (val : A → V).
Context (step : gmap string V → A → gmap string V).
Context (step_assigns : ∀ acc p, step acc p = <[key p := val p]> acc).

Lemma fold_assign_is_Some (ps : list A) (acc : gmap string V) (k : string) :
  is_Some (fold_left step ps acc !! k) ↔ is_Some (acc !! k) ∨ k ∈ key <$> ps.
Proof.
  revert acc. induction ps as [|p ps IH]; intros acc; simpl.
  - rewrite elem_of_nil. tauto.
  - rewrite IH, step_assigns, elem_of_cons.
    destruct (decide (key p = k)) as [<-|Hne].
    + rewrite lookup_insert_eq. split; [intros _|intros _; left; by eexists].
      right. by left.
    + rewrite lookup_insert_ne by done. split; [tauto|].
      intros [H|[H|H]]; [tauto|congruence|tauto].
Qed.

End AssignedKeys.

Section StoreInvariants.
Context {Json : Type} (JSON_stringify : option Json → option string).

Local Abbreviation create := (createLti1p3RegistrationOverlayStore JSON_stringify).

(** The initializer copies the scopes and the placement kinds as they come:
    the first snapshot is duplicate-free exactly when the document lists no
    scope twice and has no two records of the same placement kind.  From
    such a document, the store holds a duplicate-free snapshot after any
    sequence of calls. *)
Theorem store_duplicate_free (internalConfig : InternalLtiConfiguration.t Json) :
  let scopes := InternalLtiConfiguration.scopes internalConfig in
  let kinds :=
    InternalPlacement.placement <$> InternalLtiConfiguration.placements internalConfig in
  (duplicate_free (Store.state (create internalConfig)) ↔ NoDup scopes ∧ NoDup kinds)
  ∧ (NoDup scopes → NoDup kinds →
     ∀ actions, duplicate_free (Store.state (run actions (create internalConfig)))).
Proof.
  intros scopes kinds. split; [done|].
  intros Hscopes Hkinds actions.
  apply (run_invariant duplicate_free dispatch_duplicate_free). by split.
Qed.

(** No action writes to [override_uris], [naming] or [icons]: after any
    sequence of calls they are those of the first snapshot.  When no record
    of the document has the kind ['__proto__'], whose assignment would
    replace the prototype rather than add a property, the own keys of the
    three objects are then the placement kinds of the document's records,
    whatever placements have been toggled since. *)
Theorem store_placement_entries_fixed (internalConfig : InternalLtiConfiguration.t Json)
    (actions : list Action) :
  let first := Store.state (create internalConfig) in
  let state := Store.state (run actions (create internalConfig)) in
  let kinds :=
    InternalPlacement.placement <$> InternalLtiConfiguration.placements internalConfig in
  State.override_uris state = State.override_uris first
  ∧ State.naming state = State.naming first
  ∧ State.icons state = State.icons first
  ∧ ("__proto__" ∉ kinds →
     (∀ kind, is_Some (OverrideUris.placements (State.override_uris state) !! kind)
              ↔ kind ∈ kinds)
     ∧ (∀ kind, is_Some (Naming.placements (State.naming state) !! kind) ↔ kind ∈ kinds)
     ∧ (∀ kind, is_Some (Icons.placements (State.icons state) !! kind) ↔ kind ∈ kinds)).
Proof.
  intros first state kinds.
  assert (State.override_uris state = State.override_uris first
          ∧ State.naming state = State.naming first
          ∧ State.icons state = State.icons first) as (Hou & Hn & Hi).
  { apply (run_invariant
             (λ s, State.override_uris s = State.override_uris first
                   ∧ State.naming s = State.naming first
                   ∧ State.icons s = State.icons first)); [|done].
    intros a s H. by destruct a. }
  split_and!; [done..|]. intros _.
  split_and!; intros kind.
  - rewrite Hou. subst first. simpl.
    rewrite (fold_assign_is_Some InternalPlacement.placement
               (λ p, OverrideUri.mk
                       (Some (default "LtiResourceLinkRequest" (InternalPlacement.message_type p)))
                       (Some (default (InternalLtiConfiguration.target_link_uri internalConfig)
                                (InternalPlacement.url p))))) by done.
    rewrite lookup_empty, is_Some_alt. tauto.
  - rewrite Hn. subst first. simpl.
    rewrite (fold_assign_is_Some InternalPlacement.placement
               (λ p, PlacementName.mk
                       (Some (default (InternalLtiConfiguration.title internalConfig)
                                (InternalPlacement.text p))))) by done.
    rewrite lookup_empty, is_Some_alt. tauto.
  - rewrite Hi. subst first. simpl.
    rewrite (fold_assign_is_Some InternalPlacement.placement
               (λ p, PlacementIcon.mk (InternalPlacement.icon_url p))) by done.
    rewrite lookup_empty, is_Some_alt. tauto.
Qed.

(** The initializer sets both lists and the flag, and no action unsets
    them: after any sequence of calls all three are present.  Toggling the
    flag twice then gives back the very snapshot, and so does toggling twice
    a scope or a placement that is not listed. *)
Theorem store_fields_present (internalConfig : InternalLtiConfiguration.t Json)
    (actions : list Action) :
  let state := Store.state (run actions (create internalConfig)) in
  is_Some (Permissions.scopes (State.permissions state))
  ∧ is_Some (Placements.placements (State.placements state))
  ∧ is_Some (Placements.courseNavigationDefaultDisabled (State.placements state))
  ∧ toggleCourseNavigationDefaultDisabled (toggleCourseNavigationDefaultDisabled state)
    = state
  ∧ (∀ scope,
       scope ∉ entries (Permissions.scopes (State.permissions state)) →
       toggleScope scope (toggleScope scope state) = state)
  ∧ (∀ placement,
       placement ∉ entries (Placements.placements (State.placements state)) →
       togglePlacement placement (togglePlacement placement state) = state).
Proof.
  intros state.
  assert (is_Some (Permissions.scopes (State.permissions state))
          ∧ is_Some (Placements.placements (State.placements state))
          ∧ is_Some (Placements.courseNavigationDefaultDisabled (State.placements state)))
    as (Hscopes & Hplacements & Hflag).
  { apply (run_invariant
             (λ s, is_Some (Permissions.scopes (State.permissions s))
                   ∧ is_Some (Placements.placements (State.placements s))
                   ∧ is_Some (Placements.courseNavigationDefaultDisabled
                                (State.placements s)))).
    - intros a s (H1 & H2 & H3). destruct a; simpl; split_and!; try done; by eexists.
    - simpl. split_and!; by eexists. }
  split_and!; [done..| | |].
  - destruct state as [ls [scopes] ds [placements flag] ou n i]. projections.
    destruct Hflag as [b ->].
    unfold toggleCourseNavigationDefaultDisabled,
      placements_toggleCourseNavigationDefaultDisabled.
    projections. simpl truthy_bool. by rewrite negb_involutive.
  - intros scope. destruct state as [ls [scopes] ds [placements flag] ou n i].
    projections. destruct Hscopes as [l ->]. simpl entries. intros Hl.
    unfold toggleScope, permissions_toggleScope. projections.
    by rewrite toggled_twice_absent.
  - intros placement. destruct state as [ls [scopes] ds [placements flag] ou n i].
    projections. destruct Hplacements as [l ->]. simpl entries. intros Hl.
    unfold togglePlacement, placements_togglePlacement. projections.
    by rewrite toggled_twice_absent.
Qed.

End StoreInvariants.

Lemma store_placement_entries_fixed_witness :
  let state :=
    Store.state
      (run [TogglePlacement "editor_button"; TogglePlacement "course_navigation"]
         (createLti1p3RegistrationOverlayStore no_key_stringify
            (sample_config None None None
               [course_navigation_plain; account_navigation_full]))) in
  Placements.placements (State.placements state) = Some ["account_navigation"; "editor_button"]
  ∧ (∀ kind, is_Some (OverrideUris.placements (State.override_uris state) !! kind)
             ↔ kind ∈ ["course_navigation"; "account_navigation"]).
Proof.
  split; [reflexivity|].
  destruct (store_placement_entries_fixed no_key_stringify
              (sample_config None None None
                 [course_navigation_plain; account_navigation_full])
              [TogglePlacement "editor_button"; TogglePlacement "course_navigation"])
    as (_ & _ & _ & Hkeys).
  destruct Hkeys as (Hoverride & _).
  - simpl. intros Hin. apply list_elem_of_In in Hin. simpl in Hin.
    destruct Hin as [H|[H|[]]]; discriminate H.
  - exact Hoverride.
Defined.

Lemma store_duplicate_free_witness :
  duplicate_free
    (Store.state
       (run [TogglePlacement "editor_button"; ToggleScope "scope/lineitem";
             TogglePlacement "course_navigation"]
          (createLti1p3RegistrationOverlayStore no_key_stringify
             (sample_config None None None
                [course_navigation_plain; account_navigation_full])))).
Proof.
  destruct (store_duplicate_free no_key_stringify
              (sample_config None None None
                 [course_navigation_plain; account_navigation_full])) as [_ Hrun].
  apply Hrun; simpl; apply NoDup_ListNoDup; repeat constructor; simpl; intuition discriminate.
Defined.

Lemma store_fields_present_witness :
  let state :=
    Store.state
      (run [TogglePlacement "course_navigation"; SetDomain "y.com"]
         (createLti1p3RegistrationOverlayStore no_key_stringify
            (sample_config None None None
               [course_navigation_plain; account_navigation_full]))) in
  togglePlacement "course_navigation" (togglePlacement "course_navigation" state) = state.
Proof.
  destruct (store_fields_present no_key_stringify
              (sample_config None None None
                 [course_navigation_plain; account_navigation_full])
              [TogglePlacement "course_navigation"; SetDomain "y.com"])
    as (_ & _ & _ & _ & _ & Hplacement).
  apply Hplacement.
  simpl. intros Hin. apply list_elem_of_In in Hin. vm_compute in Hin.
  destruct Hin as [H|[]]; discriminate H.
Defined.

(** ** Fields of the first snapshot that go together *)

Section FirstSnapshot.
Context {Json : Type} (JSON_stringify : option Json → option string).

Local Abbreviation init := (initialOverlayStateFromInternalConfig JSON_stringify).

(** In the first snapshot the method ['public_jwk_url'] comes with a
    non-empty [JwkURL], and a true [courseNavigationDefaultDisabled] comes
    with ["course_navigation"] among the listed placements.  The second does
    not survive the actions: toggling ["course_navigation"] then unlists it
    and leaves the flag true. *)
Theorem initial_fields_consistent (internalConfig : InternalLtiConfiguration.t Json) :
  let first := init internalConfig in
  let flag s := Placements.courseNavigationDefaultDisabled (State.placements s) in
  let listed s := entries (Placements.placements (State.placements s)) in
  (LaunchSettings.JwkMethod (State.launchSettings first) = Some public_jwk_url →
     ∃ url, LaunchSettings.JwkURL (State.launchSettings first) = Some url ∧ url ≠ "")
  ∧ (flag first = Some true → "course_navigation" ∈ listed first)
  ∧ (flag first = Some true →
     flag (togglePlacement "course_navigation" first) = Some true
     ∧ "course_navigation" ∉ listed (togglePlacement "course_navigation" first)).
Proof.
  intros first flag listed.
  assert (flag first = Some true → "course_navigation" ∈ listed first) as Hlisted.
  { subst first flag listed. simpl. intros [= Hflag]. apply bool_decide_eq_true in Hflag.
    destruct (find_course_navigation (InternalLtiConfiguration.placements internalConfig))
      as [r|] eqn:Hfind; [|done].
    apply find_course_navigation_Some in Hfind as (before & after & -> & _ & <-).
    apply list_elem_of_fmap_2. apply elem_of_app. right. left. }
  split_and!; [|done|].
  - subst first. simpl.
    destruct (InternalLtiConfiguration.public_jwk_url internalConfig) as [url|]; simpl.
    + destruct (decide (url = "")) as [->|Hne]; [done|]. intros _. by exists url.
    + done.
  - intros Hflag. split; [exact Hflag|].
    specialize (Hlisted Hflag). subst listed first.
    unfold togglePlacement, placements_togglePlacement,
      initialOverlayStateFromInternalConfig in *.
    projections. unfold entries in *. cbn [from_option id] in *.
    rewrite toggled_present by done. rewrite elem_of_filter_ne. tauto.
Qed.

End FirstSnapshot.

Lemma initial_fields_consistent_witness :
  "course_navigation"
    ∈ entries
        (Placements.placements
           (State.placements
              (initialOverlayStateFromInternalConfig no_key_stringify
                 (sample_config None None None
                    [account_navigation_full; course_navigation_disabled])))).
Proof.
  destruct (initial_fields_consistent no_key_stringify
              (sample_config None None None
                 [account_navigation_full; course_navigation_disabled]))
    as (_ & Hlisted & _).
  apply Hlisted. reflexivity.
Defined.

(** ** Sequences of calls over the object store *)

Lemma snapshot_weaken (h h' : Refs.heap) (state : Refs.loc) (st : State.t) :
  h ⊆ h' → Refs.snapshot h state = Some st → Refs.snapshot h' state = Some st.
Proof.
  intros Hsub Hsnap.
  apply snapshot_Some in Hsnap as (o & H0 & H1 & H2 & H3 & H4 & H5 & H6 & H7).
  apply snapshot_Some. exists o. split_and!; by eapply lookup_weaken.
Qed.

Lemma snapshot_in_dom (h : Refs.heap) (state : Refs.loc) (st : State.t) :
  Refs.snapshot h state = Some st → state ∈ dom h.
Proof.
  intros Hsnap. apply snapshot_Some in Hsnap as (o & H0 & _).
  apply elem_of_dom. by eexists.
Qed.

(** One call: it succeeds on a store that holds the snapshot, only adds
    objects, and stores the updated snapshot at a new location. *)
Lemma dispatch_allocates (a : Action) (h : Refs.heap) (state : Refs.loc) (st : State.t) :
  Refs.snapshot h state = Some st →
  ∃ state' h',
    Refs.dispatch a state h = Some (state', h')
    ∧ h ⊆ h'
    ∧ (state' ∉ dom h)
    ∧ Refs.snapshot h' state' = Some (dispatch a st).
Proof.
  intros Hsnap.
  apply snapshot_Some in Hsnap as (o & H0 & H1 & H2 & H3 & H4 & H5 & H6 & H7).
  destruct a; simpl Refs.dispatch;
    unfold Refs.updateLaunchSetting, Refs.toggleScope, Refs.setPrivacyLevel,
      Refs.togglePlacement, Refs.toggleCourseNavigationDefaultDisabled,
      Refs.bind, Refs.read, Refs.alloc, Refs.get_State, Refs.get_LaunchSettings,
      Refs.get_Permissions, Refs.get_DataSharing, Refs.get_Placements;
    rewrite H0; cbn beta iota; rewrite ?H1, ?H2, ?H3, ?H4; cbn beta iota zeta;
    match goal with
    | |- context [<[_ := Refs.O_State ?new]> (<[_ := ?sec]> h)] =>
        let p := eval pattern (fresh (dom h)) in (Refs.O_State new) in
        match p with
        | ?F _ =>
            pose proof (alloc_two h sec F) as Ha; cbv zeta beta in Ha;
            destruct Ha as (Hsub & Hl1 & Hl2 & Hsec & Hstate)
        end
    end;
    (eexists _, _; split_and!;
     [ reflexivity | exact Hsub | exact Hl2
     | apply snapshot_Some; eexists; split_and!;
       [ exact Hstate | first [ exact Hsec | by eapply lookup_weaken ].. ] ]).
Qed.

(** A sequence of calls on a store that holds a snapshot never fails and
    never changes an object: the snapshot it started from, still at its
    location, reads as before.  The snapshot it ends with reads as the
    actions applied in turn to the value of the first, and, when at least
    one action was called, it is at a location that was not in use, even
    when its value is the value of the first. *)
Theorem run_keeps_earlier_snapshots (actions : list Action) (h : Refs.heap)
    (state : Refs.loc) (st : State.t) :
  Refs.snapshot h state = Some st →
  ∃ state' h',
    Refs.run actions state h = Some (state', h')
    ∧ h ⊆ h'
    ∧ Refs.snapshot h' state = Some st
    ∧ Refs.snapshot h' state' = Some (Store.state (run actions (Store.mk st)))
    ∧ (actions ≠ [] → (state' ∉ dom h) ∧ state' ≠ state).
Proof.
  revert h state st. induction actions as [|a actions IH]; intros h state st Hsnap.
  - exists state, h. split_and!; try done.
  - destruct (dispatch_allocates a h state st Hsnap)
      as (state1 & h1 & Hrun1 & Hsub1 & Hnew1 & Hsnap1).
    destruct (IH h1 state1 (dispatch a st) Hsnap1)
      as (state' & h' & Hrun & Hsub & Hkeep1 & Hsnap' & Hnew).
    exists state', h'. split_and!.
    + simpl. unfold Refs.bind. by rewrite Hrun1.
    + by transitivity h1.
    + eapply snapshot_weaken; [|exact Hsnap]. by transitivity h1.
    + exact Hsnap'.
    + intros _.
      assert (state' ∉ dom h) as Hfresh.
      { destruct actions as [|b actions].
        - simpl in Hrun. unfold Refs.ret in Hrun. by injection Hrun as <- <-.
        - destruct Hnew as [Hnew _]; [done|].
          intros Hin. apply Hnew. by eapply (subseteq_dom h h1). }
      split; [done|]. intros ->. apply Hfresh. by eapply snapshot_in_dom.
Qed.

Lemma run_keeps_earlier_snapshots_witness :
  ∃ state' h',
    Refs.run [SetPrivacyLevel "anonymous"; ToggleScope "scope/score"] 8%positive sample_heap
    = Some (state', h')
    ∧ sample_heap ⊆ h'
    ∧ Refs.snapshot h' 8%positive = Some sample_state
    ∧ Refs.snapshot h' state'
      = Some (Store.state
                (run [SetPrivacyLevel "anonymous"; ToggleScope "scope/score"]
                   (Store.mk sample_state)))
    ∧ ([SetPrivacyLevel "anonymous"; ToggleScope "scope/score"] ≠ [] →
       (state' ∉ dom sample_heap) ∧ state' ≠ 8%positive).
Proof.
  apply (run_keeps_earlier_snapshots
           [SetPrivacyLevel "anonymous"; ToggleScope "scope/score"]
           sample_heap 8%positive sample_state).
  reflexivity.
Defined.

(** ** Reading back the serialized fields *)

Lemma append_cons (d : Ascii.ascii) (s t : string) : String d s +:+ t = String d (s +:+ t).
Proof. reflexivity. Qed.

Lemma has_char_append (c : Ascii.ascii) (s t : string) :
  has_char c (s +:+ String c t) = true.
Proof.
  induction s as [|d s IH].
  - change (has_char c (String c t) = true). simpl. by rewrite Ascii.eqb_refl.
  - rewrite append_cons. simpl. rewrite IH. apply orb_true_r.
Qed.

(** A string is cut in one way only at the first occurrence of a
    character. *)
Lemma cut_at_first (c : Ascii.ascii) (s1 s2 t1 t2 : string) :
  has_char c s1 = false → has_char c s2 = false →
  s1 +:+ String c t1 = s2 +:+ String c t2 → s1 = s2 ∧ t1 = t2.
Proof.
  revert s2. induction s1 as [|d1 s1 IH]; intros [|d2 s2] H1 H2 Heq.
  - change (String c t1 = String c t2) in Heq. by injection Heq as ->.
  - rewrite append_cons in Heq. change (String c t1 = String d2 (s2 +:+ String c t2)) in Heq.
    injection Heq as <- _. simpl in H2. by rewrite Ascii.eqb_refl in H2.
  - rewrite append_cons in Heq. change (String d1 (s1 +:+ String c t1) = String c t2) in Heq.
    injection Heq as -> _. simpl in H1. by rewrite Ascii.eqb_refl in H1.
  - rewrite !append_cons in Heq. injection Heq as -> Heq.
    simpl in H1, H2. apply orb_false_elim in H1 as [_ H1]. apply orb_false_elim in H2 as [_ H2].
    destruct (IH s2 H1 H2 Heq) as [-> ->]. done.
Qed.

Lemma customFields_line_append (k v rest : string) :
  customFields_line (k, v) +:+ rest = k +:+ String EQ_char (v +:+ String LF_char rest).
Proof.
  unfold customFields_line. cbn [fst snd].
  rewrite append_assoc.
  change ("=" +:+ v +:+ LF) with (String EQ_char (v +:+ LF)).
  rewrite append_cons, append_assoc. reflexivity.
Qed.

Lemma customFields_lines_injective (entries1 entries2 : list (string * string)) :
  (∀ e, e ∈ entries1 → has_char EQ_char e.1 = false ∧ has_char LF_char e.2 = false) →
  (∀ e, e ∈ entries2 → has_char EQ_char e.1 = false ∧ has_char LF_char e.2 = false) →
  foldr String.append "" (customFields_line <$> entries1)
  = foldr String.append "" (customFields_line <$> entries2) →
  entries1 = entries2.
Proof.
  revert entries2.
  induction entries1 as [|[k1 v1] es1 IH]; intros [|[k2 v2] es2] H1 H2 Heq.
  - done.
  - simpl in Heq. rewrite customFields_line_append in Heq. by destruct k2.
  - simpl in Heq. rewrite customFields_line_append in Heq. by destruct k1.
  - simpl in Heq. rewrite !customFields_line_append in Heq.
    destruct (H1 (k1, v1)) as [Hk1 Hv1]; [left|].
    destruct (H2 (k2, v2)) as [Hk2 Hv2]; [left|].
    simpl in Hk1, Hv1, Hk2, Hv2.
    destruct (cut_at_first EQ_char _ _ _ _ Hk1 Hk2 Heq) as [-> Heq'].
    destruct (cut_at_first LF_char _ _ _ _ Hv1 Hv2 Heq') as [-> Heq''].
    f_equal. apply IH; [| |done].
    + intros e He. apply H1. by right.
    + intros e He. apply H2. by right.
Qed.

Lemma join_cons_cons (x y : string) (l : list string) :
  join LF (x :: y :: l) = x +:+ String LF_char (join LF (y :: l)).
Proof. reflexivity. Qed.

Lemma join_injective (x1 x2 : string) (l1 l2 : list string) :
  (∀ u, u ∈ x1 :: l1 → has_char LF_char u = false) →
  (∀ u, u ∈ x2 :: l2 → has_char LF_char u = false) →
  join LF (x1 :: l1) = join LF (x2 :: l2) → x1 :: l1 = x2 :: l2.
Proof.
  revert x1 x2 l2. induction l1 as [|y1 l1 IH]; intros x1 x2 [|y2 l2] H1 H2 Heq.
  - simpl in Heq. by subst.
  - rewrite join_cons_cons in Heq. simpl in Heq.
    assert (has_char LF_char x1 = false) as Hx1 by (apply H1; left).
    rewrite Heq, has_char_append in Hx1. discriminate.
  - rewrite join_cons_cons in Heq. simpl in Heq.
    assert (has_char LF_char x2 = false) as Hx2 by (apply H2; left).
    rewrite <- Heq, has_char_append in Hx2. discriminate.
  - rewrite !join_cons_cons in Heq.
    assert (has_char LF_char x1 = false) as Hx1 by (apply H1; left).
    assert (has_char LF_char x2 = false) as Hx2 by (apply H2; left).
    destruct (cut_at_first LF_char _ _ _ _ Hx1 Hx2 Heq) as [-> Heq'].
    f_equal. apply IH; [| |done].
    + intros u Hu. apply H1. by right.
    + intros u Hu. apply H2. by right.
Qed.

Section SerializedFields.
Context {Json : Type} (JSON_stringify : option Json → option string).

Local Abbreviation init := (initialOverlayStateFromInternalConfig JSON_stringify).

(** The custom fields can be read back from [launchSettings.customFields]
    when no key has an equals sign and no value has a line feed: two such
    mappings with the same serialization have the same entries in the same
    order.  Nothing is escaped, so that without the condition they cannot:
    [{"a=b": "c"}] and [{"a": "b=c"}] both give ["a=b=c\n"]. *)
Theorem initial_customFields_injective
    (config1 config2 : InternalLtiConfiguration.t Json)
    (entries1 entries2 : list (string * string)) :
  InternalLtiConfiguration.custom_fields config1 = Some entries1 →
  InternalLtiConfiguration.custom_fields config2 = Some entries2 →
  (∀ e, e ∈ entries1 → has_char EQ_char e.1 = false ∧ has_char LF_char e.2 = false) →
  (∀ e, e ∈ entries2 → has_char EQ_char e.1 = false ∧ has_char LF_char e.2 = false) →
  LaunchSettings.customFields (State.launchSettings (init config1))
  = LaunchSettings.customFields (State.launchSettings (init config2)) →
  entries1 = entries2.
Proof.
  intros Hc1 Hc2 H1 H2. simpl. rewrite Hc1, Hc2, !fold_customFields_step.
  intros [= Heq]. by apply customFields_lines_injective.
Qed.

(** The redirect URIs can be read back from [launchSettings.redirectURIs]
    when the list is not empty and no URI has a line feed: two such lists
    with the same joined string are the same list. *)
Theorem initial_redirectURIs_injective
    (config1 config2 : InternalLtiConfiguration.t Json)
    (uri1 uri2 : string) (uris1 uris2 : list string) :
  InternalLtiConfiguration.redirect_uris config1 = Some (uri1 :: uris1) →
  InternalLtiConfiguration.redirect_uris config2 = Some (uri2 :: uris2) →
  (∀ u, u ∈ uri1 :: uris1 → has_char LF_char u = false) →
  (∀ u, u ∈ uri2 :: uris2 → has_char LF_char u = false) →
  LaunchSettings.redirectURIs (State.launchSettings (init config1))
  = LaunchSettings.redirectURIs (State.launchSettings (init config2)) →
  uri1 :: uris1 = uri2 :: uris2.
Proof.
  intros Hc1 Hc2 H1 H2. simpl. rewrite Hc1, Hc2. simpl.
  intros [= Heq]. by apply join_injective.
Qed.

End SerializedFields.

(** Two different mappings with the same serialization, and two different
    lists of redirect URIs with the same joined string. *)
Example serialized_fields_collide :
  LaunchSettings.customFields
    (State.launchSettings
       (initialOverlayStateFromInternalConfig no_key_stringify
          (sample_config None None (Some [("a=b", "c")]) [])))
  = LaunchSettings.customFields
      (State.launchSettings
         (initialOverlayStateFromInternalConfig no_key_stringify
            (sample_config None None (Some [("a", "b=c")]) [])))
  ∧ LaunchSettings.redirectURIs
      (State.launchSettings
         (initialOverlayStateFromInternalConfig no_key_stringify
            (sample_config (Some []) None None [])))
    = LaunchSettings.redirectURIs
        (State.launchSettings
           (initialOverlayStateFromInternalConfig no_key_stringify
              (sample_config (Some [""]) None None []))).
Proof. split; reflexivity. Qed.

Lemma initial_customFields_injective_witness :
  [("a", "1"); ("b", "2")] = [("a", "1"); ("b", "2")].
Proof.
  apply (initial_customFields_injective no_key_stringify
           (sample_config None None (Some [("a", "1"); ("b", "2")]) [])
           (sample_config None None (Some [("a", "1"); ("b", "2")]) [])
           [("a", "1"); ("b", "2")] [("a", "1"); ("b", "2")]);
    try reflexivity;
    (intros e He; apply list_elem_of_In in He; simpl in He;
     destruct He as [<-|[<-|[]]]; split; reflexivity).
Defined.

Lemma initial_redirectURIs_injective_witness :
  ["https://x.com/a"; "https://x.com/b"] = ["https://x.com/a"; "https://x.com/b"].
Proof.
  apply (initial_redirectURIs_injective no_key_stringify
           (sample_config (Some ["https://x.com/a"; "https://x.com/b"]) None None [])
           (sample_config (Some ["https://x.com/a"; "https://x.com/b"]) None None [])
           "https://x.com/a" "https://x.com/a" ["https://x.com/b"] ["https://x.com/b"]);
    try reflexivity;
    (intros u Hu; apply list_elem_of_In in Hu; simpl in Hu;
     destruct Hu as [<-|[<-|[]]]; reflexivity).
Defined.
